(** * lbnlp.nlp.ner: the NER tagging pipeline of [NERClassifier]

    A shallow embedding of [src/lbnlp/nlp/ner.py].  The classifier is glue
    around four external collaborators (the sequence-tagging model, the
    MatScholar tokenizer/processor, the normalizer and the configuration
    base class).  They are kept abstract in the class [External]; every call
    to one of them may raise and may change the outside world, so methods
    live in a state-and-exception monad over the classifier object and the
    world. *)

From Stdlib Require Import String Ascii.
From stdpp Require Import base option list strings gmap.

Local Open Scope string_scope.
Local Open Scope list_scope.

(** ** Results of fallible calls *)

Inductive Result (E A : Type) : Type :=
| Ok (a : A)
| Raise (e : E).
Arguments Ok {E A} a.
Arguments Raise {E A} e.

(** ** Tokens, tags, tagged documents *)

(** Tokens and tags are strings; a tagged sentence is a list of
    [(token, tag)] pairs and a tagged document a list of tagged sentences. *)

(** The placeholder the processor substitutes for numerals. *)
Definition nUm : string := "<nUm>".

(** ** Configuration (class [Configure]) *)

Record Config : Type := {
  dim_word : nat;
  dim_char : nat;
  dir_data : string;
  dir_final_model : string;
  filename_words : string;
  filename_tags : string;
  filename_chars : string;
  filename_glove : string;
  filename_trimmed : string;
  dir_output : string
}.

Definition set_dim_word (n : nat) (c : Config) : Config :=
  {| dim_word := n; dim_char := dim_char c; dir_data := dir_data c;
     dir_final_model := dir_final_model c;
     filename_words := filename_words c; filename_tags := filename_tags c;
     filename_chars := filename_chars c; filename_glove := filename_glove c;
     filename_trimmed := filename_trimmed c; dir_output := dir_output c |}.

Definition set_dim_char (n : nat) (c : Config) : Config :=
  {| dim_word := dim_word c; dim_char := n; dir_data := dir_data c;
     dir_final_model := dir_final_model c;
     filename_words := filename_words c; filename_tags := filename_tags c;
     filename_chars := filename_chars c; filename_glove := filename_glove c;
     filename_trimmed := filename_trimmed c; dir_output := dir_output c |}.

(** [posixpath.join] on two components: what [os.path.join] is on a POSIX
    platform. *)
Fixpoint ends_with_slash (s : string) : bool :=
  match s with
  | EmptyString => false
  | String c EmptyString => Ascii.eqb c "/"
  | String _ rest => ends_with_slash rest
  end.

Definition posixpath_join (a b : string) : string :=
  if String.prefix "/" b then b
  else if String.eqb a "" then b
  else if ends_with_slash a then a ++ b
  else a ++ "/" ++ b.

(** ** The inference model: two variants behind one [predict] *)

Inductive Model : Type :=
| NERServingModel (config : Config) (api_url : string)
| NERModel (config : Config).

Definition is_remote (m : Model) : bool :=
  match m with
  | NERServingModel _ _ => true
  | NERModel _ => false
  end.

(** ** External collaborators *)

Class External : Type := {
  World : Type;
  Exn : Type;
  (** raised by [xs[0]] on an empty list *)
  IndexError : Exn;
  (** second component of the pair returned by [processor.process] *)
  Aux : Type;
  Processor : Type;
  Normalizer : Type;
  Concatenated : Type;
  Normalized : Type;
  (** [os.path.dirname(__file__)] *)
  LOCAL_DIR : string;
  (** [os.path.join] on two components; which function it is depends on the
      platform ([posixpath.join], [ntpath.join]) *)
  path_join : string -> string -> string;
  (** class-level defaults inherited from the configuration base class *)
  Config_dim_word : nat;
  Config_dim_char : nat;
  (** [Config.__init__(log_path=...)] *)
  Config_init : Config -> string -> World -> Result Exn unit * World;
  reset_default_graph : World -> Result Exn unit * World;
  NERServingModel_init : Config -> string -> World -> Result Exn unit * World;
  NERModel_init : Config -> World -> Result Exn unit * World;
  build : Model -> World -> Result Exn unit * World;
  restore_session : Model -> string -> World -> Result Exn unit * World;
  save_prediction_model : Model -> string -> World -> Result Exn unit * World;
  model_close_session : Model -> World -> Result Exn unit * World;
  predict : Model -> list string -> World -> Result Exn (list string) * World;
  Normalizer_new : World -> Result Exn Normalizer * World;
  MatScholarProcess_new : World -> Result Exn Processor * World;
  tokenize : Processor -> string -> World -> Result Exn (list (list string)) * World;
  (** [process(sent, convert_num=b)]; [convert_num] defaults to [True] *)
  process : Processor -> list string -> bool ->
            World -> Result Exn (list string * Aux) * World;
  _concatenate_ents : Normalizer -> list (list (string * string)) ->
                      World -> Result Exn Concatenated * World;
  normalize : Normalizer -> list string -> list (list (list (string * string))) ->
              World -> Result Exn (list Normalized) * World
}.

Section Classifier.
Context {X : External}.

(** The attributes of a constructed [NERClassifier]. *)
Record NERClassifier : Type := {
  config : Config;
  api_url : option string;
  model : Model;
  normalizer : Normalizer;
  processor : Processor
}.

(** A method runs against the object it is called on and the outside world. *)
Record State : Type := { self : NERClassifier; world : World }.

(** State-and-exception monad over a state [S]: [S] is [World] for code
    that runs before the object exists and [State] for methods. *)
Definition St (S A : Type) : Type := S -> Result Exn A * S.

Definition ret {S A} (a : A) : St S A := fun st => (Ok a, st).

Definition raise {S A} (e : Exn) : St S A := fun st => (Raise e, st).

Definition bind {S A B} (m : St S A) (k : A -> St S B) : St S B :=
  fun st =>
    match m st with
    | (Ok a, st') => k a st'
    | (Raise e, st') => (Raise e, st')
    end.

Definition M (A : Type) : Type := St State A.

(** Attribute read [self.f]. *)
Definition getattr {A} (f : NERClassifier -> A) : M A :=
  fun st => (Ok (f (self st)), st).

(** Attribute assignment [self.f = v], given as the updated object. *)
Definition setattr (upd : NERClassifier -> NERClassifier) : M unit :=
  fun st => (Ok tt, {| self := upd (self st); world := world st |}).

(** A call into an external collaborator: it sees the world only. *)
Definition call {A} (e : St World A) : M A :=
  fun st =>
    match e (world st) with
    | (r, w) => (r, {| self := self st; world := w |})
    end.

End Classifier.

Declare Scope py_scope.
Delimit Scope py_scope with py.
Notation "x <- c1 ;; c2" := (bind c1 (fun x => c2))
  (at level 100, c1 at next level, right associativity) : py_scope.
Notation "c1 ;;; c2" := (bind c1 (fun _ => c2))
  (at level 100, right associativity) : py_scope.
Local Open Scope py_scope.

Section Methods.
Context {X : External}.

(** [for x in xs: body], the loop's local variables threaded as [acc]. *)
Fixpoint for_in {S A B} (xs : list A) (body : A -> B -> St S B) (acc : B) : St S B :=
  match xs with
  | [] => ret acc
  | x :: rest => acc' <- body x acc ;; for_in rest body acc'
  end.

(** [[f(x) for x in xs]] with an effectful [f]. *)
Fixpoint comprehension {S A B} (f : A -> St S B) (xs : list A) : St S (list B) :=
  match xs with
  | [] => ret []
  | x :: rest => y <- f x ;; ys <- comprehension f rest ;; ret (y :: ys)
  end.

(** Python's [zip] stops at the shortest argument. *)
Definition zip {A B} (xs : list A) (ys : list B) : list (A * B) := combine xs ys.

Fixpoint zip3 {A B C} (xs : list A) (ys : list B) (zs : list C) : list (A * B * C) :=
  match xs, ys, zs with
  | x :: xs', y :: ys', z :: zs' => (x, y, z) :: zip3 xs' ys' zs'
  | _, _, _ => []
  end.

(** [xs[0]] *)
Definition item0 {S A} (xs : list A) : St S A :=
  match xs with
  | x :: _ => ret x
  | [] => raise IndexError
  end.

(** *** [Configure.__init__] *)
Definition Configure : St World Config :=
  let dir_data := path_join LOCAL_DIR "models/ner" in
  let dir_final_model := path_join dir_data "model.weights/" in
  let filename_words := path_join dir_data "words.txt" in
  let filename_tags := path_join dir_data "tags.txt" in
  let filename_chars := path_join dir_data "chars.txt" in
  let filename_glove := path_join dir_data "w2v.txt" in
  let filename_trimmed := path_join dir_data "glove.6B.200d.trimmed.npz" in
  let log_path := path_join dir_data "logs.txt" in
  let dir_output := path_join dir_data "results/" in
  let c := {| dim_word := Config_dim_word; dim_char := Config_dim_char;
              dir_data := dir_data; dir_final_model := dir_final_model;
              filename_words := filename_words; filename_tags := filename_tags;
              filename_chars := filename_chars; filename_glove := filename_glove;
              filename_trimmed := filename_trimmed; dir_output := dir_output |} in
  Config_init c log_path ;;;
  ret c.

(** *** [NERClassifier.__init__], run with [os.environ] *)
Definition __init__ (environ : gmap string string) : St World NERClassifier :=
  config <- Configure ;;
  let config := set_dim_word 250 config in
  let config := set_dim_char 50 config in
  let api_url := environ !! "TF_SERVING_URL" in
  reset_default_graph ;;;
  model <- match api_url with
           | Some url =>
               NERServingModel_init config url ;;;
               ret (NERServingModel config url)
           | None =>
               NERModel_init config ;;;
               let model := NERModel config in
               build model ;;;
               restore_session model (dir_final_model config) ;;;
               ret model
           end ;;
  normalizer <- Normalizer_new ;;
  processor <- MatScholarProcess_new ;;
  ret {| config := config; api_url := api_url; model := model;
         normalizer := normalizer; processor := processor |}.

(** *** [NERClassifier.tag_sequence] *)
Definition tag_sequence (sequence : list string) : M (list (string * string)) :=
  m <- getattr model ;;
  tags <- call (predict m sequence) ;;
  ret (map (fun '(token, tag) => (token, tag)) (zip sequence tags)).

(** The comprehension of lines 70-71 and 118-119. *)
Definition restore_numbers (sent sent_num tags : list string) : list (string * string) :=
  map (fun '(token, token_num, tag) =>
         if negb (String.eqb token "<nUm>") then (token, tag) else (token_num, tag))
      (zip3 sent sent_num tags).

(** *** [NERClassifier._preprocess] *)
Definition _preprocess (text : string) : M (list (list string) * list (list string)) :=
  p <- getattr processor ;;
  sents <- call (tokenize p text) ;;
  for_in sents
    (fun sent '(processed_sents, processed_sents_num) =>
       p <- getattr processor ;;
       r <- call (process p sent true) ;;
       let '(processed, _) := r in
       p <- getattr processor ;;
       r_num <- call (process p sent false) ;;
       let '(processed_num, _) := r_num in
       ret (processed_sents ++ [processed], processed_sents_num ++ [processed_num]))
    ([], []).

(** The loop body shared by [tag_doc] and [tag_docs]. *)
Definition tag_sentence_into (pair : list string * list string)
    (tagged_doc : list (list (string * string))) : M (list (list (string * string))) :=
  let '(sent, sent_num) := pair in
  m <- getattr model ;;
  tags <- call (predict m sent) ;;
  ret (tagged_doc ++ [restore_numbers sent sent_num tags]).

(** *** [NERClassifier.tag_doc] *)
Definition tag_doc (doc : string) : M (list (list (string * string))) :=
  r <- _preprocess doc ;;
  let '(processed_sents, processed_sents_num) := r in
  for_in (zip processed_sents processed_sents_num) tag_sentence_into [].

(** *** [NERClassifier.concatenate_entities] *)
Definition concatenate_entities (tagged_doc : list (list (string * string))) : M Concatenated :=
  n <- getattr normalizer ;;
  call (_concatenate_ents n tagged_doc).

(** *** [NERClassifier.normalize_entities] *)
Definition normalize_entities (doc : string) (tagged_doc : list (list (string * string)))
  : M Normalized :=
  n <- getattr normalizer ;;
  r <- call (normalize n [doc] [tagged_doc]) ;;
  item0 r.

(** *** [NERClassifier.tag_docs] *)
Definition tag_docs (docs : list string) : M (list (list (list (string * string)))) :=
  for_in docs
    (fun doc tagged_docs =>
       r <- _preprocess doc ;;
       let '(processed_sents, processed_sents_num) := r in
       tagged_doc <- for_in (zip processed_sents processed_sents_num) tag_sentence_into [] ;;
       ret (tagged_docs ++ [tagged_doc]))
    [].

(** *** [NERClassifier.as_iob] *)
Definition as_iob (docs : list string) : M (list (list (list (string * string)))) :=
  tag_docs docs.

(** *** [NERClassifier.as_concatenated] *)
Definition as_concatenated (docs : list string) : M (list Concatenated) :=
  tagged_docs <- tag_docs docs ;;
  for_in tagged_docs
    (fun doc concatenated =>
       n <- getattr normalizer ;;
       conc <- call (_concatenate_ents n doc) ;;
       ret (concatenated ++ [conc]))
    [].

(** *** [NERClassifier.as_normalized] *)
Definition as_normalized (docs : list string) : M (list Normalized) :=
  tagged_docs <- tag_docs docs ;;
  n <- getattr normalizer ;;
  call (normalize n docs tagged_docs).

(** *** [NERClassifier.save_model] *)
Definition save_model (save_dir : string) : M unit :=
  m <- getattr model ;;
  call (build m) ;;;
  m <- getattr model ;;
  c <- getattr config ;;
  call (restore_session m (dir_final_model c)) ;;;
  m <- getattr model ;;
  call (save_prediction_model m save_dir).

(** *** [NERClassifier.close_session] *)
Definition close_session : M unit :=
  m <- getattr model ;;
  call (model_close_session m).

End Methods.

(** ** The public operation surface, as data *)

Section Operations.
Context {X : External}.

Inductive Operation : Type :=
| Op_tag_sequence (sequence : list string)
| Op_tag_doc (doc : string)
| Op_tag_docs (docs : list string)
| Op_as_iob (docs : list string)
| Op_as_concatenated (docs : list string)
| Op_as_normalized (docs : list string)
| Op_concatenate_entities (tagged_doc : list (list (string * string)))
| Op_normalize_entities (doc : string) (tagged_doc : list (list (string * string)))
| Op_save_model (save_dir : string)
| Op_close_session.

(** The state a call leaves behind, whether it returned or raised. *)
Definition exec (op : Operation) (st : State) : State :=
  match op with
  | Op_tag_sequence s => snd (tag_sequence s st)
  | Op_tag_doc d => snd (tag_doc d st)
  | Op_tag_docs ds => snd (tag_docs ds st)
  | Op_as_iob ds => snd (as_iob ds st)
  | Op_as_concatenated ds => snd (as_concatenated ds st)
  | Op_as_normalized ds => snd (as_normalized ds st)
  | Op_concatenate_entities td => snd (concatenate_entities td st)
  | Op_normalize_entities d td => snd (normalize_entities d td st)
  | Op_save_model dir => snd (save_model dir st)
  | Op_close_session => snd (close_session st)
  end.

Definition exec_all (ops : list Operation) (st : State) : State :=
  fold_left (fun s op => exec op s) ops st.

(** [m] leaves the object's attributes as they were. *)
Definition frame {A} (m : M A) : Prop :=
  forall st, self (snd (m st)) = self st.

(** Successful runs of [f] over [xs], left to right, threading the state. *)
Inductive runs {S A B} (f : A -> St S B) : list A -> S -> list B -> S -> Prop :=
| runs_nil st : runs f [] st [] st
| runs_cons x xs st y st1 ys st2 :
    f x st = (Ok y, st1) ->
    runs f xs st1 ys st2 ->
    runs f (x :: xs) st (y :: ys) st2.

(** Tagging one sentence of the two tracks (the body of the inner loop). *)
Definition tag_sentence (pair : list string * list string) : M (list (string * string)) :=
  m <- getattr model ;;
  tags <- call (predict m (fst pair)) ;;
  ret (restore_numbers (fst pair) (snd pair) tags).

(** Producing both tracks of one sentence (the body of [_preprocess]'s loop). *)
Definition split_tracks (sent : list string) : M (list string * list string) :=
  p <- getattr processor ;;
  r <- call (process p sent true) ;;
  p <- getattr processor ;;
  r_num <- call (process p sent false) ;;
  ret (fst r, fst r_num).

(** All sentences of a document restored against their tag sequences. *)
Definition restore_all (ps psn tagss : list (list string)) : list (list (string * string)) :=
  map (fun '(sent, sent_num, tags) => restore_numbers sent sent_num tags)
      (zip3 ps psn tagss).

(** The two tracks of a sentence agree wherever the placeholder track
    does not hold the sentinel. *)
Definition differ_at_numerals_only (sent sent_num : list string) : Prop :=
  Forall2 (fun p n => p <> nUm -> p = n) sent sent_num.

Definition total_tokens {A} (sents : list (list A)) : nat :=
  foldr (fun s n => length s + n) 0 sents.

End Operations.

(** ** Concrete collaborators, for running the pipeline *)

Module Mock.

(** Whitespace tokenizer: one sentence per document. *)
Fixpoint words_aux (cur : string) (s : string) : list string :=
  match s with
  | EmptyString => if String.eqb cur "" then [] else [cur]
  | String c rest =>
      if Ascii.eqb c " "
      then (if String.eqb cur "" then words_aux "" rest else cur :: words_aux "" rest)
      else words_aux (cur ++ String c EmptyString) rest
  end.

(** A sentence ends with the token ["."]. *)
Fixpoint sentences_aux (cur : list string) (ws : list string) : list (list string) :=
  match ws with
  | [] => match cur with [] => [] | _ => [cur] end
  | w :: rest =>
      if String.eqb w "."
      then (cur ++ [w]) :: sentences_aux [] rest
      else sentences_aux (cur ++ [w]) rest
  end.

Definition words (s : string) : list (list string) :=
  sentences_aux [] (words_aux "" s).

Definition is_digit (c : ascii) : bool :=
  let n := nat_of_ascii c in (48 <=? n)%nat && (n <=? 57)%nat.

Fixpoint all_digits (s : string) : bool :=
  match s with
  | EmptyString => true
  | String c rest => is_digit c && all_digits rest
  end.

Definition is_number (s : string) : bool :=
  negb (String.eqb s "") && all_digits s.

(** Numerals become the placeholder when [convert_num] is set. *)
Definition process_tokens (sent : list string) (convert_num : bool) : list string :=
  map (fun t => if convert_num && is_number t then "<nUm>" else t) sent.

(** A processor whose numeral-preserving pass drops numerals altogether. *)
Definition process_drifting (sent : list string) (convert_num : bool) : list string :=
  if convert_num then process_tokens sent true
  else filter (fun t => negb (is_number t)) sent.

Definition predict_outside (sent : list string) : Result string (list string) :=
  Ok (map (fun _ => "O") sent).

Definition predict_nothing (sent : list string) : Result string (list string) :=
  Ok [].

(** An endpoint that fails on sentences containing the placeholder. *)
Definition predict_flaky (sent : list string) : Result string (list string) :=
  if existsb (String.eqb "<nUm>") sent
  then Raise "ConnectionError: timed out"
  else predict_outside sent.

(** The world is a counter that [predict] advances by [step]. *)
Definition external
    (step : nat -> nat)
    (tok : string -> list (list string))
    (proc : list string -> bool -> list string)
    (pred : list string -> Result string (list string)) : External :=
  {| World := nat;
     Exn := string;
     IndexError := "IndexError";
     Aux := unit;
     Processor := unit;
     Normalizer := unit;
     Concatenated := list (list (string * string));
     Normalized := list (list (string * string));
     LOCAL_DIR := "/opt/lbnlp/nlp";
     path_join := posixpath_join;
     Config_dim_word := 300;
     Config_dim_char := 100;
     Config_init := fun _ _ w => (Ok tt, w);
     reset_default_graph := fun w => (Ok tt, w);
     NERServingModel_init := fun _ _ w => (Ok tt, w);
     NERModel_init := fun _ w => (Ok tt, w);
     build := fun _ w => (Ok tt, w);
     restore_session := fun _ _ w => (Ok tt, w);
     save_prediction_model := fun _ _ w => (Ok tt, w);
     model_close_session := fun _ w => (Ok tt, w);
     predict := fun _ sent w => (pred sent, step w);
     Normalizer_new := fun w => (Ok tt, w);
     MatScholarProcess_new := fun w => (Ok tt, w);
     tokenize := fun _ text w => (Ok (tok text), w);
     process := fun _ sent b w => (Ok (proc sent b, tt), w);
     _concatenate_ents := fun _ td w => (Ok td, w);
     normalize := fun _ _ tds w => (Ok tds, w) |}.

Definition sound : External := external S words process_tokens predict_outside.
Definition stateless : External := external id words process_tokens predict_outside.
Definition short_tags : External := external S words process_tokens predict_nothing.
Definition drifting : External := external S words process_drifting predict_outside.
Definition flaky : External := external S words process_tokens predict_flaky.

(** Collaborators whose weights directory cannot be restored. *)
Definition no_weights : External :=
  {| World := nat;
     Exn := string;
     IndexError := "IndexError";
     Aux := unit;
     Processor := unit;
     Normalizer := unit;
     Concatenated := list (list (string * string));
     Normalized := list (list (string * string));
     LOCAL_DIR := "/opt/lbnlp/nlp";
     path_join := posixpath_join;
     Config_dim_word := 300;
     Config_dim_char := 100;
     Config_init := fun _ _ w => (Ok tt, w);
     reset_default_graph := fun w => (Ok tt, w);
     NERServingModel_init := fun _ _ w => (Ok tt, w);
     NERModel_init := fun _ w => (Ok tt, w);
     build := fun _ w => (Ok tt, S w);
     restore_session := fun _ _ w => (Raise "NotFoundError: model.weights", S w);
     save_prediction_model := fun _ _ w => (Ok tt, S w);
     model_close_session := fun _ w => (Ok tt, w);
     predict := fun _ sent w => (predict_outside sent, S w);
     Normalizer_new := fun w => (Ok tt, w);
     MatScholarProcess_new := fun w => (Ok tt, w);
     tokenize := fun _ text w => (Ok (words text), w);
     process := fun _ sent b w => (Ok (process_tokens sent b, tt), w);
     _concatenate_ents := fun _ td w => (Ok td, w);
     normalize := fun _ _ tds w => (Ok tds, w) |}.

(** A tokenizer service that is down, and a processor that rejects
    sentences holding a numeral. *)
Definition no_tokenizer : External :=
  {| World := nat;
     Exn := string;
     IndexError := "IndexError";
     Aux := unit;
     Processor := unit;
     Normalizer := unit;
     Concatenated := list (list (string * string));
     Normalized := list (list (string * string));
     LOCAL_DIR := "/opt/lbnlp/nlp";
     path_join := posixpath_join;
     Config_dim_word := 300;
     Config_dim_char := 100;
     Config_init := fun _ _ w => (Ok tt, w);
     reset_default_graph := fun w => (Ok tt, w);
     NERServingModel_init := fun _ _ w => (Ok tt, w);
     NERModel_init := fun _ w => (Ok tt, w);
     build := fun _ w => (Ok tt, w);
     restore_session := fun _ _ w => (Ok tt, w);
     save_prediction_model := fun _ _ w => (Ok tt, w);
     model_close_session := fun _ w => (Ok tt, w);
     predict := fun _ sent w => (predict_outside sent, S w);
     Normalizer_new := fun w => (Ok tt, w);
     MatScholarProcess_new := fun w => (Ok tt, w);
     tokenize := fun _ text w => (Raise "TokenizerError", S w);
     process := fun _ sent b w => (Ok (process_tokens sent b, tt), w);
     _concatenate_ents := fun _ td w => (Ok td, w);
     normalize := fun _ _ tds w => (Ok tds, w) |}.

Definition strict_processor : External :=
  {| World := nat;
     Exn := string;
     IndexError := "IndexError";
     Aux := unit;
     Processor := unit;
     Normalizer := unit;
     Concatenated := list (list (string * string));
     Normalized := list (list (string * string));
     LOCAL_DIR := "/opt/lbnlp/nlp";
     path_join := posixpath_join;
     Config_dim_word := 300;
     Config_dim_char := 100;
     Config_init := fun _ _ w => (Ok tt, w);
     reset_default_graph := fun w => (Ok tt, w);
     NERServingModel_init := fun _ _ w => (Ok tt, w);
     NERModel_init := fun _ w => (Ok tt, w);
     build := fun _ w => (Ok tt, w);
     restore_session := fun _ _ w => (Ok tt, w);
     save_prediction_model := fun _ _ w => (Ok tt, w);
     model_close_session := fun _ w => (Ok tt, w);
     predict := fun _ sent w => (predict_outside sent, S w);
     Normalizer_new := fun w => (Ok tt, w);
     MatScholarProcess_new := fun w => (Ok tt, w);
     tokenize := fun _ text w => (Ok (words text), w);
     process := fun _ sent b w =>
       if existsb is_number sent && negb b
       then (Raise "ValueError: numeral", S w)
       else (Ok (process_tokens sent b, tt), S w);
     _concatenate_ents := fun _ td w => (Ok td, w);
     normalize := fun _ _ tds w => (Ok tds, w) |}.

Definition local_config : Config :=
  {| dim_word := 250; dim_char := 50;
     dir_data := "/opt/lbnlp/nlp/models/ner";
     dir_final_model := "/opt/lbnlp/nlp/models/ner/model.weights/";
     filename_words := "/opt/lbnlp/nlp/models/ner/words.txt";
     filename_tags := "/opt/lbnlp/nlp/models/ner/tags.txt";
     filename_chars := "/opt/lbnlp/nlp/models/ner/chars.txt";
     filename_glove := "/opt/lbnlp/nlp/models/ner/w2v.txt";
     filename_trimmed := "/opt/lbnlp/nlp/models/ner/glove.6B.200d.trimmed.npz";
     dir_output := "/opt/lbnlp/nlp/models/ner/results/" |}.

(** A classifier built with no endpoint configured, and a fresh world. *)
Definition classifier (X : External) (n : @Normalizer X) (p : @Processor X)
  : @NERClassifier X :=
  {| config := local_config; api_url := None; model := NERModel local_config;
     normalizer := n; processor := p |}.

(** A classifier built with the endpoint [http://tf:8501] configured. *)
Definition remote_classifier (X : External) (n : @Normalizer X) (p : @Processor X)
  : @NERClassifier X :=
  {| config := local_config; api_url := Some "http://tf:8501";
     model := NERServingModel local_config "http://tf:8501";
     normalizer := n; processor := p |}.

Definition start (X : External) (n : @Normalizer X) (p : @Processor X) (w : @World X)
  : @State X :=
  {| self := classifier X n p; world := w |}.

Definition heated : string := "Fe2O3 was heated to 100 degrees .".
Definition plain : string := "Fe2O3 was heated .".
Definition report : string := "Fe2O3 was heated . It reached 100 degrees .".

End Mock.

(** * Properties *)

(** ** The monad and the two loop forms *)

Section MonadLemmas.
Context {X : External}.

Lemma bind_ok {S A B} (m : St S A) (k : A -> St S B) st a st1 :
  m st = (Ok a, st1) -> bind m k st = k a st1.
Proof. intros H. unfold bind. now rewrite H. Qed.

Lemma bind_raise {S A B} (m : St S A) (k : A -> St S B) st e st1 :
  m st = (Raise e, st1) -> bind m k st = (Raise e, st1).
Proof. intros H. unfold bind. now rewrite H. Qed.

Lemma bind_inv_ok {S A B} (m : St S A) (k : A -> St S B) st b st2 :
  bind m k st = (Ok b, st2) ->
  exists a st1, m st = (Ok a, st1) /\ k a st1 = (Ok b, st2).
Proof.
  unfold bind. destruct (m st) as [[a|e] st1]; intros H.
  - now exists a, st1.
  - discriminate.
Qed.

Lemma bind_ext {S A B} (m : St S A) (k1 k2 : A -> St S B) st :
  (forall a st1, k1 a st1 = k2 a st1) -> bind m k1 st = bind m k2 st.
Proof. intros H. unfold bind. destruct (m st) as [[a|e] st1]; auto. Qed.

Lemma for_in_ext {S A B} (body1 body2 : A -> B -> St S B) xs :
  (forall x acc st, body1 x acc st = body2 x acc st) ->
  forall acc st, for_in xs body1 acc st = for_in xs body2 acc st.
Proof.
  intros Hb. induction xs as [|x xs IH]; intros acc st; simpl; [reflexivity|].
  unfold bind. rewrite Hb. destruct (body2 x acc st) as [[a|e] st1]; auto.
Qed.

(** A loop that appends one result per element is the comprehension,
    appended to what the accumulator held on entry. *)
Lemma for_in_collect {S A B} (f : A -> St S B) xs :
  forall (acc : list B) st,
    for_in xs (fun x acc => y <- f x ;; ret (acc ++ [y])) acc st
    = (ys <- comprehension f xs ;; ret (acc ++ ys)) st.
Proof.
  induction xs as [|x xs IH]; intros acc st; simpl.
  - unfold bind, ret. now rewrite app_nil_r.
  - unfold bind, ret in *. destruct (f x st) as [[y|e] st1]; [|reflexivity].
    rewrite IH. destruct (comprehension f xs st1) as [[ys|e] st2]; [|reflexivity].
    now rewrite <- app_assoc.
Qed.

Lemma comprehension_runs {S A B} (f : A -> St S B) xs :
  forall st ys st', comprehension f xs st = (Ok ys, st') <-> runs f xs st ys st'.
Proof.
  induction xs as [|x xs IH]; intros st ys st'; simpl.
  - unfold ret. split.
    + intros H. injection H as <- <-. constructor.
    + intros H. inversion H; subst. reflexivity.
  - split.
    + intros H. apply bind_inv_ok in H as (y & st1 & Hy & H).
      apply bind_inv_ok in H as (zs & st2 & Hzs & H).
      unfold ret in H. injection H as <- <-.
      econstructor; [exact Hy|]. now apply IH.
    + intros H. inversion H as [|? ? ? y st1 zs ? Hy Hzs]; subst.
      rewrite (bind_ok _ _ _ _ _ Hy).
      apply IH in Hzs. now rewrite (bind_ok _ _ _ _ _ Hzs).
Qed.

Lemma runs_length {S A B} (f : A -> St S B) xs st ys st' :
  runs f xs st ys st' -> length ys = length xs.
Proof. induction 1; simpl; congruence. Qed.

Lemma runs_lookup {S A B} (f : A -> St S B) (xs : list A) st (ys : list B) st' :
  runs f xs st ys st' ->
  forall k y, ys !! k = Some y ->
    exists x sk sk', xs !! k = Some x /\ f x sk = (Ok y, sk').
Proof.
  induction 1 as [|x xs st y st1 ys st2 Hy Hr IH]; intros k z Hk.
  - destruct k; discriminate.
  - destruct k as [|k]; simpl in Hk.
    + injection Hk as <-. now exists x, st, st1.
    + destruct (IH k z Hk) as (x' & sk & sk' & Hx & Hf).
      now exists x', sk, sk'.
Qed.

(** The first call that raises ends the comprehension with its exception. *)
Lemma comprehension_raise_at {S A B} (f : A -> St S B) pre x post st ys st1 e st2 :
  runs f pre st ys st1 ->
  f x st1 = (Raise e, st2) ->
  comprehension f (pre ++ x :: post) st = (Raise e, st2).
Proof.
  induction 1 as [|x0 xs st y st1 ys st3 Hy Hr IH]; intros Hx; simpl.
  - now rewrite (bind_raise _ _ _ _ _ Hx).
  - rewrite (bind_ok _ _ _ _ _ Hy). now rewrite (bind_raise _ _ _ _ _ (IH Hx)).
Qed.

Lemma comprehension_app {S A B} (f : A -> St S B) xs1 xs2 :
  forall st,
    comprehension f (xs1 ++ xs2) st
    = (a <- comprehension f xs1 ;; b <- comprehension f xs2 ;; ret (a ++ b)) st.
Proof.
  induction xs1 as [|x xs1 IH]; intros st; simpl.
  - unfold bind, ret. destruct (comprehension f xs2 st) as [[b|e] st1]; reflexivity.
  - unfold bind, ret in *. destruct (f x st) as [[y|e] st1]; [|reflexivity].
    rewrite IH. destruct (comprehension f xs1 st1) as [[a|e] st2]; [|reflexivity].
    destruct (comprehension f xs2 st2) as [[b|e] st3]; reflexivity.
Qed.

Lemma comprehension_stable {S A B} (f : A -> St S B) xs st ys :
  Forall2 (fun x y => f x st = (Ok y, st)) xs ys ->
  comprehension f xs st = (Ok ys, st).
Proof.
  induction 1 as [|x y xs ys Hx HF IH]; simpl; [reflexivity|].
  rewrite (bind_ok _ _ _ _ _ Hx). now rewrite (bind_ok _ _ _ _ _ IH).
Qed.

Lemma comprehension_ext {S A B} (f g : A -> St S B) xs :
  (forall x st, f x st = g x st) ->
  forall st, comprehension f xs st = comprehension g xs st.
Proof.
  intros Hfg. induction xs as [|x xs IH]; intros st; simpl; [reflexivity|].
  unfold bind. rewrite Hfg. destruct (g x st) as [[y|e] st1]; [|reflexivity].
  now rewrite IH.
Qed.

(** *** Frame rules *)

Lemma frame_ret {A} (a : A) : frame (ret a).
Proof. intros st. reflexivity. Qed.

Lemma frame_raise {A} e : frame (@raise _ _ A e).
Proof. intros st. reflexivity. Qed.

Lemma frame_getattr {A} (f : NERClassifier -> A) : frame (getattr f).
Proof. intros st. reflexivity. Qed.

Lemma frame_call {A} (e : St World A) : frame (call e).
Proof. intros st. unfold call. now destruct (e (world st)). Qed.

Lemma frame_bind {A B} (m : M A) (k : A -> M B) :
  frame m -> (forall a, frame (k a)) -> frame (bind m k).
Proof.
  intros Hm Hk st. unfold bind. specialize (Hm st).
  destruct (m st) as [[a|e] st1]; simpl in *; [|exact Hm].
  now rewrite Hk.
Qed.

Lemma frame_for_in {A B} (body : A -> B -> M B) xs :
  (forall x acc, frame (body x acc)) -> forall acc, frame (for_in xs body acc).
Proof.
  intros Hb. induction xs as [|x xs IH]; intros acc; simpl.
  - apply frame_ret.
  - apply frame_bind; auto.
Qed.

Lemma frame_comprehension {A B} (f : A -> M B) xs :
  (forall x, frame (f x)) -> frame (comprehension f xs).
Proof.
  intros Hf. induction xs as [|x xs IH]; simpl.
  - apply frame_ret.
  - apply frame_bind; [apply Hf|]. intros y.
    apply frame_bind; [exact IH|]. intros ys. apply frame_ret.
Qed.

Lemma frame_item0 {A} (xs : list A) : frame (item0 xs).
Proof. destruct xs; [apply frame_raise | apply frame_ret]. Qed.

(** Assignment to an attribute is what the frame rules exclude. *)
Lemma setattr_changes_self (upd : NERClassifier -> NERClassifier) st :
  self (snd (setattr upd st)) = upd (self st).
Proof. reflexivity. Qed.

End MonadLemmas.

Create HintDb frame.
#[export] Hint Resolve frame_ret frame_raise frame_getattr frame_call
  frame_item0 : frame.
#[export] Hint Extern 2 (frame (bind _ _)) =>
  apply frame_bind; [|intro] : frame.
#[export] Hint Extern 2 (frame (for_in _ _ _)) =>
  apply frame_for_in; intros : frame.
#[export] Hint Extern 2 (frame (comprehension _ _)) =>
  apply frame_comprehension; intros : frame.
#[export] Hint Extern 3 (frame (match ?p with pair _ _ => _ end)) =>
  destruct p : frame.
#[export] Hint Extern 3 (frame (let '(_, _) := ?p in _)) =>
  destruct p : frame.

Ltac frame_solver := repeat (progress (unfold
    tag_sequence, tag_doc, tag_docs, as_iob, as_concatenated, as_normalized,
    concatenate_entities, normalize_entities, save_model, close_session,
    _preprocess, tag_sentence_into, tag_sentence, split_tracks));
  auto 30 with frame.

Section MethodFrames.
Context {X : External}.

Lemma frame_tag_sequence s : frame (tag_sequence s).
Proof. frame_solver. Qed.

Lemma frame_preprocess text : frame (_preprocess text).
Proof. frame_solver. Qed.

Lemma frame_tag_sentence pair : frame (tag_sentence pair).
Proof. frame_solver. Qed.

Lemma frame_split_tracks sent : frame (split_tracks sent).
Proof. frame_solver. Qed.

Lemma frame_tag_doc doc : frame (tag_doc doc).
Proof. frame_solver. Qed.

Lemma frame_tag_docs docs : frame (tag_docs docs).
Proof. frame_solver. Qed.

Lemma frame_as_iob docs : frame (as_iob docs).
Proof. frame_solver. Qed.

Lemma frame_as_concatenated docs : frame (as_concatenated docs).
Proof. frame_solver. Qed.

Lemma frame_as_normalized docs : frame (as_normalized docs).
Proof. frame_solver. Qed.

Lemma frame_concatenate_entities td : frame (concatenate_entities td).
Proof. frame_solver. Qed.

Lemma frame_normalize_entities doc td : frame (normalize_entities doc td).
Proof. frame_solver. Qed.

Lemma frame_save_model dir : frame (save_model dir).
Proof. frame_solver. Qed.

Lemma frame_close_session : frame close_session.
Proof. frame_solver. Qed.

Lemma exec_self op st : self (exec op st) = self st.
Proof.
  destruct op; simpl.
  - apply frame_tag_sequence.
  - apply frame_tag_doc.
  - apply frame_tag_docs.
  - apply frame_as_iob.
  - apply frame_as_concatenated.
  - apply frame_as_normalized.
  - apply frame_concatenate_entities.
  - apply frame_normalize_entities.
  - apply frame_save_model.
  - apply frame_close_session.
Qed.

Lemma exec_all_self ops : forall st, self (exec_all ops st) = self st.
Proof.
  unfold exec_all. induction ops as [|op ops IH]; intros st; simpl.
  - reflexivity.
  - rewrite IH. apply exec_self.
Qed.

End MethodFrames.

(** ** What the methods compute *)

Section MethodLemmas.
Context {X : External}.

Lemma bind_ret_r {S A} (m : St S A) st : (a <- m ;; ret a) st = m st.
Proof. unfold bind, ret. now destruct (m st) as [[a|e] st1]. Qed.

Lemma bind_assoc {S A B C} (m : St S A) (k : A -> St S B) (h : B -> St S C) st :
  (b <- (a <- m ;; k a) ;; h b) st = (a <- m ;; b <- k a ;; h b) st.
Proof. unfold bind. now destruct (m st) as [[a|e] st1]. Qed.

Lemma runs_self {A B} (f : A -> M B) xs st ys st' :
  (forall x, frame (f x)) -> runs f xs st ys st' -> self st' = self st.
Proof.
  intros Hf. induction 1 as [|x xs st y st1 ys st2 Hy Hr IH]; [reflexivity|].
  rewrite IH. specialize (Hf x st). now rewrite Hy in Hf.
Qed.

Lemma runs_lookup_self {A B} (f : A -> M B) (xs : list A) st (ys : list B) st' :
  (forall x, frame (f x)) ->
  runs f xs st ys st' ->
  forall k y, ys !! k = Some y ->
    exists x sk sk',
      xs !! k = Some x /\ f x sk = (Ok y, sk') /\ self sk = self st.
Proof.
  intros Hf. induction 1 as [|x xs st y st1 ys st2 Hy Hr IH]; intros k z Hk.
  - destruct k; discriminate.
  - destruct k as [|k]; simpl in Hk.
    + injection Hk as <-. now exists x, st, st1.
    + destruct (IH k z Hk) as (x' & sk & sk' & Hx & Hfx & Hs).
      exists x', sk, sk'. repeat split; auto.
      rewrite Hs. specialize (Hf x st). now rewrite Hy in Hf.
Qed.

Lemma runs_lookup_fwd {A B} (f : A -> M B) (xs : list A) st (ys : list B) st' :
  (forall x, frame (f x)) ->
  runs f xs st ys st' ->
  forall k x, xs !! k = Some x ->
    exists y sk sk',
      ys !! k = Some y /\ f x sk = (Ok y, sk') /\ self sk = self st.
Proof.
  intros Hf. induction 1 as [|x0 xs st y st1 ys st2 Hy Hr IH]; intros k x Hk.
  - destruct k; discriminate.
  - destruct k as [|k]; simpl in Hk.
    + injection Hk as <-. now exists y, st, st1.
    + destruct (IH k x Hk) as (y' & sk & sk' & Hyk & Hfx & Hs).
      exists y', sk, sk'. repeat split; auto.
      rewrite Hs. specialize (Hf x0 st). now rewrite Hy in Hf.
Qed.

(** *** [zip] and the restoring comprehension *)

Lemma zip_length {A B} (xs : list A) (ys : list B) :
  length (zip xs ys) = min (length xs) (length ys).
Proof. apply length_combine. Qed.

Lemma zip_lookup {A B} (xs : list A) (ys : list B) :
  forall k x y, zip xs ys !! k = Some (x, y) <-> xs !! k = Some x /\ ys !! k = Some y.
Proof.
  unfold zip. revert ys. induction xs as [|a xs IH]; intros [|b ys] k x y; simpl.
  - split; [discriminate|]. intros [H _]. destruct k; discriminate.
  - split; [discriminate|]. intros [H _]. destruct k; discriminate.
  - split; [discriminate|]. intros [_ H]. destruct k; discriminate.
  - destruct k as [|k]; simpl.
    + split; [intros [= <- <-]; auto | intros [[= <-] [= <-]]; auto].
    + apply IH.
Qed.

Lemma zip3_length {A B C} (xs : list A) (ys : list B) (zs : list C) :
  length (zip3 xs ys zs) = min (length xs) (min (length ys) (length zs)).
Proof.
  revert ys zs. induction xs as [|x xs IH]; intros [|y ys] [|z zs]; simpl; auto.
Qed.

Lemma zip3_lookup {A B C} (xs : list A) (ys : list B) (zs : list C) :
  forall k x y z,
    zip3 xs ys zs !! k = Some (x, y, z) <->
    xs !! k = Some x /\ ys !! k = Some y /\ zs !! k = Some z.
Proof.
  revert ys zs.
  induction xs as [|a xs IH]; intros [|b ys] [|c zs] k x y z; simpl;
    try (split; [discriminate | intros (H1 & H2 & H3); destruct k; discriminate]).
  destruct k as [|k]; simpl.
  - split; [intros [= <- <- <-]; auto | intros ([= <-] & [= <-] & [= <-]); auto].
  - apply IH.
Qed.

Lemma restore_numbers_length sent sent_num tags :
  length (restore_numbers sent sent_num tags)
  = min (length sent) (min (length sent_num) (length tags)).
Proof. unfold restore_numbers. rewrite length_map. apply zip3_length. Qed.

Lemma restore_numbers_lookup sent sent_num tags i tok tg :
  restore_numbers sent sent_num tags !! i = Some (tok, tg) ->
  exists p n,
    sent !! i = Some p /\ sent_num !! i = Some n /\ tags !! i = Some tg /\
    tok = if String.eqb p nUm then n else p.
Proof.
  unfold restore_numbers. rewrite list_lookup_fmap.
  destruct (zip3 sent sent_num tags !! i) as [[[p n] t]|] eqn:Hz; simpl; [|discriminate].
  apply zip3_lookup in Hz as (Hp & Hn & Ht).
  intros H. exists p, n. change nUm with "<nUm>".
  destruct (String.eqb p "<nUm>"); simpl in H; injection H as <- <-; auto.
Qed.

(** *** [tag_sequence] *)

Lemma tag_sequence_run sequence st :
  tag_sequence sequence st
  = match predict (model (self st)) sequence (world st) with
    | (Ok tags, w) => (Ok (zip sequence tags), {| self := self st; world := w |})
    | (Raise e, w) => (Raise e, {| self := self st; world := w |})
    end.
Proof.
  unfold tag_sequence, bind, getattr, call, ret.
  destruct (predict (model (self st)) sequence (world st)) as [[tags|e] w]; [|reflexivity].
  f_equal. f_equal. unfold zip.
  induction (combine sequence tags) as [|[t g] l IH]; simpl; [reflexivity|].
  now rewrite IH.
Qed.

(** *** [_preprocess] *)

Lemma preprocess_collect text st :
  _preprocess text st
  = (sents <- call (tokenize (processor (self st)) text) ;;
     pairs <- comprehension split_tracks sents ;;
     ret (map fst pairs, map snd pairs)) st.
Proof.
  unfold _preprocess.
  match goal with |- context [for_in _ ?b _] => set (body := b) end.
  assert (Hloop : forall sents ps psn s,
             for_in sents body (ps, psn) s
             = (pairs <- comprehension split_tracks sents ;;
                ret (ps ++ map fst pairs, psn ++ map snd pairs)) s).
  { induction sents as [|sent sents IH]; intros ps psn s; simpl.
    - unfold bind, ret. now rewrite !app_nil_r.
    - unfold body at 1. unfold split_tracks.
      unfold bind, getattr, call, ret in *. simpl.
      destruct (process (processor (self s)) sent true (world s)) as [[[p a]|e] w1];
        [|reflexivity]. simpl.
      destruct (process (processor (self s)) sent false w1) as [[[pn an]|e] w2];
        [|reflexivity]. simpl.
      rewrite IH.
      destruct (comprehension _ sents _) as [[pairs|e] s2]; [|reflexivity].
      simpl. now rewrite <- !app_assoc. }
  unfold bind, getattr.
  destruct (call (tokenize (processor (self st)) text) st) as [[sents|e] st0];
    [|reflexivity].
  rewrite Hloop. reflexivity.
Qed.

Lemma split_tracks_ok sent sk pair sk' :
  split_tracks sent sk = (Ok pair, sk') ->
  exists a w1 a_num,
    process (processor (self sk)) sent true (world sk) = (Ok (fst pair, a), w1) /\
    process (processor (self sk)) sent false w1 = (Ok (snd pair, a_num), world sk') /\
    self sk' = self sk.
Proof.
  unfold split_tracks, bind, getattr, call, ret. simpl.
  destruct (process (processor (self sk)) sent true (world sk))
    as [[[p a]|e] w1] eqn:H1; [|discriminate]. simpl.
  destruct (process (processor (self sk)) sent false w1)
    as [[[pn an]|e] w2] eqn:H2; [|discriminate]. simpl.
  intros [= <- <-]. exists a, w1, an. simpl. auto.
Qed.

(** When [_preprocess] returns, both tracks have one entry per sentence. *)
Lemma preprocess_ok text st ps psn st1 :
  _preprocess text st = (Ok (ps, psn), st1) ->
  exists sents w0 pairs,
    tokenize (processor (self st)) text (world st) = (Ok sents, w0) /\
    runs split_tracks sents {| self := self st; world := w0 |} pairs st1 /\
    ps = map fst pairs /\ psn = map snd pairs /\
    length ps = length sents /\ length psn = length sents /\
    self st1 = self st.
Proof.
  rewrite preprocess_collect. intros H.
  apply bind_inv_ok in H as (sents & st0 & Htok & H).
  apply bind_inv_ok in H as (pairs & st1' & Hpairs & H).
  unfold ret in H. injection H as <- <- <-.
  apply comprehension_runs in Hpairs.
  unfold call in Htok.
  destruct (tokenize (processor (self st)) text (world st)) as [r w0] eqn:Ht.
  injection Htok as -> <-.
  exists sents, w0, pairs. repeat split; auto.
  - rewrite length_map. eapply runs_length; eauto.
  - rewrite length_map. eapply runs_length; eauto.
  - apply (runs_self _ _ _ _ _ frame_split_tracks) in Hpairs. exact Hpairs.
Qed.

(** *** [tag_doc] and [tag_docs] *)

Lemma tag_sentence_into_collect pair acc st :
  tag_sentence_into pair acc st = (y <- tag_sentence pair ;; ret (acc ++ [y])) st.
Proof.
  destruct pair as [sent sent_num]. unfold tag_sentence_into, tag_sentence.
  unfold bind, getattr, call, ret. simpl.
  now destruct (predict (model (self st)) sent (world st)) as [[tags|e] w].
Qed.

Lemma tag_loop_collect pairs st :
  for_in pairs tag_sentence_into [] st = comprehension tag_sentence pairs st.
Proof.
  rewrite (for_in_ext _ (fun x acc => y <- tag_sentence x ;; ret (acc ++ [y])))
    by apply tag_sentence_into_collect.
  rewrite for_in_collect. simpl. apply bind_ret_r.
Qed.

Lemma tag_doc_collect doc st :
  tag_doc doc st
  = (r <- _preprocess doc ;; comprehension tag_sentence (zip (fst r) (snd r))) st.
Proof.
  unfold tag_doc. apply bind_ext. intros [ps psn] st1. apply tag_loop_collect.
Qed.

Lemma tag_sentence_run pair st :
  tag_sentence pair st
  = match predict (model (self st)) (fst pair) (world st) with
    | (Ok tags, w) =>
        (Ok (restore_numbers (fst pair) (snd pair) tags),
         {| self := self st; world := w |})
    | (Raise e, w) => (Raise e, {| self := self st; world := w |})
    end.
Proof.
  unfold tag_sentence, bind, getattr, call, ret.
  now destruct (predict (model (self st)) (fst pair) (world st)) as [[tags|e] w].
Qed.

Lemma tag_doc_ok doc st td st2 :
  tag_doc doc st = (Ok td, st2) ->
  exists ps psn st1,
    _preprocess doc st = (Ok (ps, psn), st1) /\
    runs tag_sentence (zip ps psn) st1 td st2.
Proof.
  rewrite tag_doc_collect. intros H.
  apply bind_inv_ok in H as ([ps psn] & st1 & Hpre & H).
  apply comprehension_runs in H. now exists ps, psn, st1.
Qed.

(** The batch method is the comprehension over [tag_doc]. *)
Lemma tag_docs_collect docs st :
  tag_docs docs st = comprehension tag_doc docs st.
Proof.
  unfold tag_docs.
  rewrite (for_in_ext _ (fun d acc => y <- tag_doc d ;; ret (acc ++ [y]))).
  - rewrite for_in_collect. simpl. apply bind_ret_r.
  - intros d acc s. unfold tag_doc. rewrite bind_assoc.
    apply bind_ext. now intros [ps psn] s1.
Qed.

End MethodLemmas.

(** ** Tagging a sentence and a document *)

Section Tagging.
Context {X : External}.

Lemma zip_app {A B} (xs1 xs2 : list A) (ys1 ys2 : list B) :
  length xs1 = length ys1 ->
  zip (xs1 ++ xs2) (ys1 ++ ys2) = zip xs1 ys1 ++ zip xs2 ys2.
Proof.
  unfold zip. revert ys1.
  induction xs1 as [|x xs1 IH]; intros [|y ys1] Hlen; simpl in *; try discriminate.
  - reflexivity.
  - f_equal. apply IH. congruence.
Qed.

Lemma zip_fst_snd {A B} (pairs : list (A * B)) :
  zip (map fst pairs) (map snd pairs) = pairs.
Proof.
  unfold zip. induction pairs as [|[a b] pairs IH]; simpl; [reflexivity|].
  now rewrite IH.
Qed.

(** Successful [predict] calls over the placeholder track are successful
    runs of the inner loop over the zipped tracks. *)
Lemma runs_predict_tag_sentence (c : NERClassifier) ps :
  forall psn st1 tagss st2,
    length ps = length psn ->
    self st1 = c ->
    runs (fun sent => call (predict (model c) sent)) ps st1 tagss st2 ->
    runs tag_sentence (zip ps psn) st1 (restore_all ps psn tagss) st2.
Proof.
  induction ps as [|sent ps IH]; intros psn st1 tagss st2 Hlen Hc Hr.
  - inversion Hr; subst. destruct psn; constructor.
  - destruct psn as [|sent_num psn]; [discriminate|].
    inversion Hr as [|? ? ? tags st1' tagss' ? Hp Hr']; subst.
    unfold restore_all. simpl.
    apply runs_cons with (st1 := st1').
    + rewrite tag_sentence_run. simpl. unfold call in Hp.
      destruct (predict (model (self st1)) sent (world st1)) as [r w].
      injection Hp as -> <-. reflexivity.
    + apply IH; [simpl in Hlen; congruence | | exact Hr'].
      specialize (frame_call (predict (model (self st1)) sent) st1) as Hf.
      now rewrite Hp in Hf.
Qed.

Lemma runs_tag_sentence_predict (c : NERClassifier) ps :
  forall psn st1 td st2,
    length ps = length psn ->
    self st1 = c ->
    runs tag_sentence (zip ps psn) st1 td st2 ->
    exists tagss,
      runs (fun sent => call (predict (model c) sent)) ps st1 tagss st2 /\
      td = restore_all ps psn tagss.
Proof.
  induction ps as [|sent ps IH]; intros psn st1 td st2 Hlen Hc Hr.
  - inversion Hr; subst. exists []. split; [constructor|]. now destruct psn.
  - destruct psn as [|sent_num psn]; [discriminate|].
    change (zip (sent :: ps) (sent_num :: psn))
      with ((sent, sent_num) :: zip ps psn) in Hr.
    inversion Hr as [|? ? ? ts st1' td' ? Hts Hr']; subst.
    rewrite tag_sentence_run in Hts. simpl in Hts.
    destruct (predict (model (self st1)) sent (world st1)) as [[tags|e] w] eqn:Hp;
      [|discriminate].
    injection Hts as <- <-.
    destruct (IH psn {| self := self st1; world := w |} td' st2
                ltac:(simpl in Hlen; congruence) eq_refl Hr')
      as (tagss & Hruns & ->).
    exists (tags :: tagss). split; [|reflexivity].
    eapply runs_cons; [|exact Hruns].
    unfold call. now rewrite Hp.
Qed.

Lemma restore_all_lookup ps psn tagss k sent sent_num tags :
  ps !! k = Some sent -> psn !! k = Some sent_num -> tagss !! k = Some tags ->
  restore_all ps psn tagss !! k = Some (restore_numbers sent sent_num tags).
Proof.
  intros Hs Hn Ht. unfold restore_all. rewrite list_lookup_fmap.
  assert (Hz : zip3 ps psn tagss !! k = Some (sent, sent_num, tags))
    by now apply zip3_lookup.
  now rewrite Hz.
Qed.

Lemma restore_numbers_lookup_iff sent sent_num tags i tok tg :
  restore_numbers sent sent_num tags !! i = Some (tok, tg) <->
  exists p n,
    sent !! i = Some p /\ sent_num !! i = Some n /\ tags !! i = Some tg /\
    tok = if String.eqb p nUm then n else p.
Proof.
  split; [apply restore_numbers_lookup|].
  intros (p & n & Hp & Hn & Ht & ->).
  unfold restore_numbers. rewrite list_lookup_fmap.
  assert (Hz : zip3 sent sent_num tags !! i = Some (p, n, tg))
    by now apply zip3_lookup.
  rewrite Hz. simpl. change nUm with "<nUm>".
  now destruct (String.eqb p "<nUm>").
Qed.

(** C1, amended. When [tag_doc] returns there is one tagged sentence per
    processed sentence, and tagged sentence [k] has an entry at index [i]
    exactly when the placeholder sequence, the preserved sequence and the
    tags predicted for that sentence all have an index [i]; its surface
    token is then the numeric-preserved token when the placeholder token is
    the sentinel ["<nUm>"] and the placeholder token otherwise, beside the
    [i]-th tag.  So a position whose placeholder is the sentinel shows the
    preserved track's token whenever the preserved sequence and the tags
    reach it, and the sentinel is shown only where the preserved track
    itself holds it. *)
Theorem tag_doc_restores_numerals
    (doc : string) (st : State) (ps psn : list (list string)) (st1 : State)
    (td : list (list (string * string))) (st2 : State) :
  _preprocess doc st = (Ok (ps, psn), st1) ->
  tag_doc doc st = (Ok td, st2) ->
  length td = length ps /\
  forall (k : nat) (sent sent_num : list string),
    ps !! k = Some sent -> psn !! k = Some sent_num ->
    exists (ts : list (string * string)) (tags : list string) w w',
      td !! k = Some ts /\
      predict (model (self st)) sent w = (Ok tags, w') /\
      (forall (i : nat) (tok tg : string),
          ts !! i = Some (tok, tg) <->
          exists p n,
            sent !! i = Some p /\ sent_num !! i = Some n /\ tags !! i = Some tg /\
            tok = (if String.eqb p nUm then n else p)) /\
      (forall (i : nat) (n tg : string),
          sent !! i = Some nUm -> sent_num !! i = Some n -> tags !! i = Some tg ->
          ts !! i = Some (n, tg)) /\
      (forall (i : nat) (tg : string),
          ts !! i = Some (nUm, tg) -> sent_num !! i = Some nUm).
Proof.
  intros Hpre Htag.
  apply tag_doc_ok in Htag as (ps' & psn' & st1' & Hpre' & Hruns).
  rewrite Hpre in Hpre'. injection Hpre' as <- <- <-.
  apply preprocess_ok in Hpre
    as (sents & w0 & pairs & Htok0 & Hsplit & Hps & Hpsn & Hl1 & Hl2 & Hself1).
  split.
  { rewrite (runs_length _ _ _ _ _ Hruns), zip_length. lia. }
  intros k sent sent_num Hs Hn.
  assert (Hpair : zip ps psn !! k = Some (sent, sent_num)) by now apply zip_lookup.
  destruct (runs_lookup_fwd _ _ _ _ _ frame_tag_sentence Hruns k _ Hpair)
    as (ts & sk & sk' & Hk & Hrun & Hself).
  rewrite tag_sentence_run in Hrun. simpl in Hrun.
  destruct (predict (model (self sk)) sent (world sk)) as [[tags|e] w'] eqn:Hp;
    [|discriminate].
  injection Hrun as <- _.
  rewrite Hself, Hself1 in Hp.
  exists (restore_numbers sent sent_num tags), tags, (world sk), w'.
  split; [exact Hk|]. split; [exact Hp|]. split; [|split].
  - intros i tok tg. apply restore_numbers_lookup_iff.
  - intros i n tg Hi Hin Hit. apply restore_numbers_lookup_iff.
    exists nUm, n. now rewrite String.eqb_refl.
  - intros i tg Hi.
    apply restore_numbers_lookup_iff in Hi as (p & n & Hip & Hin & Hit & Htok).
    destruct (String.eqb p nUm) eqn:E.
    + now rewrite Htok.
    + apply String.eqb_neq in E. congruence.
Qed.

End Tagging.

Lemma tag_doc_restores_numerals_witness :
  exists (ts : list (string * string)) (tags : list string),
    [[("Fe2O3", "O"); ("was", "O"); ("heated", "O"); ("to", "O");
      ("100", "O"); ("degrees", "O"); (".", "O")]] !! 0 = Some ts /\
    (tags !! 4 = Some "O" -> ts !! 4 = Some ("100", "O")).
Proof.
  destruct (proj2 (@tag_doc_restores_numerals Mock.sound Mock.heated
              (Mock.start Mock.sound tt tt 0)
              [["Fe2O3"; "was"; "heated"; "to"; "<nUm>"; "degrees"; "."]]
              [["Fe2O3"; "was"; "heated"; "to"; "100"; "degrees"; "."]]
              (Mock.start Mock.sound tt tt 0)
              [[("Fe2O3", "O"); ("was", "O"); ("heated", "O"); ("to", "O");
                ("100", "O"); ("degrees", "O"); (".", "O")]]
              (Mock.start Mock.sound tt tt 1)
              eq_refl eq_refl) 0
              ["Fe2O3"; "was"; "heated"; "to"; "<nUm>"; "degrees"; "."]
              ["Fe2O3"; "was"; "heated"; "to"; "100"; "degrees"; "."]
              eq_refl eq_refl)
    as (ts & tags & w & w' & Hk & _ & _ & Hnum & _).
  exists ts, tags. split; [exact Hk|].
  intros Ht. exact (Hnum 4 "100" "O" eq_refl eq_refl Ht).
Defined.

(** C1 as stated fails in its consequence.  A position that held a numeral
    need not be reported at all: with a [predict] that returns too few tags
    the tagged sentence stops before it.  And where it is reported it need
    not show the numeral: with a preserved track that lost the numeral,
    the token shown in place of ["100"] is its neighbour ["degrees"]. *)
Lemma tag_doc_numeral_position_counterexample :
  ~ (forall (Y : External) (doc : string) (st : @State Y)
            (ps psn : list (list string)) (st1 : @State Y)
            (td : list (list (string * string))) (st2 : @State Y),
        @_preprocess Y doc st = (Ok (ps, psn), st1) ->
        @tag_doc Y doc st = (Ok td, st2) ->
        forall (k : nat) (sent : list string) (i : nat),
          ps !! k = Some sent -> sent !! i = Some nUm ->
          exists ts tok tg,
            td !! k = Some ts /\ ts !! i = Some (tok, tg) /\ tok <> nUm) /\
  (exists st1 st2,
      @tokenize Mock.drifting tt Mock.heated 0
      = (Ok [["Fe2O3"; "was"; "heated"; "to"; "100"; "degrees"; "."]], 0) /\
      @_preprocess Mock.drifting Mock.heated (Mock.start Mock.drifting tt tt 0)
      = (Ok ([["Fe2O3"; "was"; "heated"; "to"; "<nUm>"; "degrees"; "."]],
             [["Fe2O3"; "was"; "heated"; "to"; "degrees"; "."]]), st1) /\
      @tag_doc Mock.drifting Mock.heated (Mock.start Mock.drifting tt tt 0)
      = (Ok [[("Fe2O3", "O"); ("was", "O"); ("heated", "O"); ("to", "O");
              ("degrees", "O"); ("degrees", "O")]], st2)).
Proof.
  split.
  - intros H.
    destruct (H Mock.short_tags Mock.heated (Mock.start Mock.short_tags tt tt 0)
                [["Fe2O3"; "was"; "heated"; "to"; "<nUm>"; "degrees"; "."]]
                [["Fe2O3"; "was"; "heated"; "to"; "100"; "degrees"; "."]]
                (Mock.start Mock.short_tags tt tt 0)
                [[]] (Mock.start Mock.short_tags tt tt 1)
                eq_refl eq_refl 0
                ["Fe2O3"; "was"; "heated"; "to"; "<nUm>"; "degrees"; "."] 4
                eq_refl eq_refl)
      as (ts & tok & tg & Hk & Hi & _).
    simpl in Hk. injection Hk as <-. discriminate.
  - exists (Mock.start Mock.drifting tt tt 0), (Mock.start Mock.drifting tt tt 1).
    repeat split.
Qed.

(** C2 as stated fails: when [predict] returns fewer tags than there are
    tokens, [zip] cuts the result short. *)
Lemma tag_sequence_length_counterexample :
  ~ (forall (Y : External) (sequence : list string) (st : @State Y),
        exists r st', @tag_sequence Y sequence st = (Ok r, st') /\
                      length r = length sequence).
Proof.
  intros H.
  destruct (H Mock.short_tags ["Fe2O3"; "was"] (Mock.start Mock.short_tags tt tt 0))
    as (r & st' & Hrun & Hlen).
  vm_compute in Hrun. injection Hrun as <- _. discriminate.
Qed.

Section TagSequence.
Context {X : External}.

(** C2, amended. When [predict] returns [tags], [tag_sequence] returns the
    pairs [(sequence[i], tags[i])] for the indices both lists have; the
    result has [min (len sequence) (len tags)] elements, hence [len sequence]
    exactly when [predict] returned at least one tag per token. *)
Theorem tag_sequence_pairs
    (sequence : list string) (st : State) (tags : list string) (w : World) :
  predict (model (self st)) sequence (world st) = (Ok tags, w) ->
  exists r : list (string * string),
    tag_sequence sequence st = (Ok r, {| self := self st; world := w |}) /\
    (forall i tok tg,
        r !! i = Some (tok, tg) <-> sequence !! i = Some tok /\ tags !! i = Some tg) /\
    length r = min (length sequence) (length tags) /\
    (length r = length sequence <-> length sequence <= length tags).
Proof.
  intros Hp. exists (zip sequence tags).
  rewrite tag_sequence_run, Hp.
  split; [reflexivity|].
  split; [intros i tok tg; apply zip_lookup|].
  split; [apply zip_length|].
  rewrite zip_length. lia.
Qed.

End TagSequence.

Lemma tag_sequence_pairs_witness :
  exists r : list (string * string),
    @tag_sequence Mock.sound ["Fe2O3"; "was"] (Mock.start Mock.sound tt tt 0)
    = (Ok r, Mock.start Mock.sound tt tt 1) /\
    length r = 2.
Proof.
  destruct (@tag_sequence_pairs Mock.sound ["Fe2O3"; "was"]
              (Mock.start Mock.sound tt tt 0) ["O"; "O"] 1 eq_refl)
    as (r & Hrun & _ & Hlen & _).
  exists r. split; [exact Hrun | exact Hlen].
Defined.

(** ** Length mismatches, failing predictions and counts *)

Section Alignment.
Context {X : External}.

Lemma preprocess_zip doc st ps psn st1 :
  _preprocess doc st = (Ok (ps, psn), st1) ->
  length ps = length psn /\ self st1 = self st.
Proof.
  intros H. apply preprocess_ok in H
    as (sents & w0 & pairs & _ & _ & _ & _ & Hl1 & Hl2 & Hs).
  split; congruence.
Qed.

(** C3, amended. [tag_doc] and [tag_docs] make no length check and raise no
    error of their own: whenever the collaborators' calls succeed, the
    document is returned, each tagged sentence cut to the shortest of the
    placeholder track, the preserved track and the tag sequence. *)
Theorem tag_doc_truncates
    (doc : string) (st : State) (ps psn : list (list string)) (st1 : State)
    (tagss : list (list string)) (st2 : State) :
  _preprocess doc st = (Ok (ps, psn), st1) ->
  runs (fun sent => call (predict (model (self st)) sent)) ps st1 tagss st2 ->
  tag_doc doc st = (Ok (restore_all ps psn tagss), st2) /\
  tag_docs [doc] st = (Ok [restore_all ps psn tagss], st2) /\
  forall k sent sent_num tags,
    ps !! k = Some sent -> psn !! k = Some sent_num -> tagss !! k = Some tags ->
    exists ts,
      restore_all ps psn tagss !! k = Some ts /\
      length ts = min (length sent) (min (length sent_num) (length tags)).
Proof.
  intros Hpre Hruns.
  destruct (preprocess_zip _ _ _ _ _ Hpre) as [Hlen Hself].
  assert (Htag : tag_doc doc st = (Ok (restore_all ps psn tagss), st2)).
  { rewrite tag_doc_collect, (bind_ok _ _ _ _ _ Hpre). simpl.
    apply comprehension_runs.
    now apply (runs_predict_tag_sentence (self st)). }
  split; [exact Htag|]. split.
  - rewrite tag_docs_collect. simpl.
    rewrite (bind_ok _ _ _ _ _ Htag). reflexivity.
  - intros k sent sent_num tags Hs Hn Ht.
    exists (restore_numbers sent sent_num tags). split.
    + now apply restore_all_lookup.
    + apply restore_numbers_length.
Qed.

(** C4. When [predict] raises on a sentence of the document (the sentences
    before it having been tagged), [tag_doc] ends with that very exception,
    in the world the failed call left; it returns no tagged document. *)
Theorem tag_doc_propagates_predict_error
    (doc : string) (st : State) (ps psn : list (list string)) (st1 : State)
    (pre : list (list string)) (sent : list string) (post : list (list string))
    (tagss : list (list string)) (st2 : State) (e : Exn) (w3 : World) :
  _preprocess doc st = (Ok (ps, psn), st1) ->
  ps = pre ++ sent :: post ->
  runs (fun s => call (predict (model (self st)) s)) pre st1 tagss st2 ->
  predict (model (self st)) sent (world st2) = (Raise e, w3) ->
  tag_doc doc st = (Raise e, {| self := self st; world := w3 |}) /\
  (forall td st', tag_doc doc st <> (Ok td, st')).
Proof.
  intros Hpre -> Hruns Hraise.
  destruct (preprocess_zip _ _ _ _ _ Hpre) as [Hlen Hself].
  assert (Htag : tag_doc doc st = (Raise e, {| self := self st; world := w3 |})).
  { rewrite tag_doc_collect, (bind_ok _ _ _ _ _ Hpre). simpl.
    rewrite <- (take_drop (length pre) psn).
    assert (Hlp : length pre = length (take (length pre) psn)).
    { rewrite length_take, length_app in *. simpl in Hlen. lia. }
    rewrite zip_app by exact Hlp.
    destruct (drop (length pre) psn) as [|sent_num post_num] eqn:Hd.
    { apply (f_equal length) in Hd. rewrite length_drop, length_app in *.
      simpl in *. lia. }
    change (zip (sent :: post) (sent_num :: post_num))
      with ((sent, sent_num) :: zip post post_num).
    eapply comprehension_raise_at.
    - apply (runs_predict_tag_sentence (self st)); eauto.
    - rewrite tag_sentence_run. simpl.
      assert (Hs2 : self st2 = self st).
      { rewrite <- Hself. eapply runs_self; [|exact Hruns].
        intros s. apply frame_call. }
      rewrite Hs2, Hraise. reflexivity. }
  split; [exact Htag|]. intros td st'. rewrite Htag. discriminate.
Qed.

Lemma restore_all_total ps :
  forall psn tagss,
    length ps = length psn -> length ps = length tagss ->
    total_tokens (restore_all ps psn tagss) <= total_tokens ps /\
    (total_tokens (restore_all ps psn tagss) = total_tokens ps <->
     forall k sent sent_num tags,
       ps !! k = Some sent -> psn !! k = Some sent_num -> tagss !! k = Some tags ->
       length sent <= length sent_num /\ length sent <= length tags).
Proof.
  induction ps as [|sent ps IH]; intros psn tagss Hl1 Hl2.
  - split; [reflexivity|]. split; [|reflexivity].
    intros _ k s sn t Hk. destruct k; discriminate.
  - destruct psn as [|sent_num psn]; [discriminate|].
    destruct tagss as [|tags tagss]; [discriminate|].
    simpl in Hl1, Hl2.
    destruct (IH psn tagss ltac:(congruence) ltac:(congruence)) as [IHle IHiff].
    change (restore_all (sent :: ps) (sent_num :: psn) (tags :: tagss))
      with (restore_numbers sent sent_num tags :: restore_all ps psn tagss).
    simpl. rewrite restore_numbers_length.
    split; [lia|]. split.
    + intros Heq.
      assert (Hrest : total_tokens (restore_all ps psn tagss) = total_tokens ps) by lia.
      intros [|k] s sn t Hs Hn Ht; simpl in Hs, Hn, Ht.
      * injection Hs as <-. injection Hn as <-. injection Ht as <-. lia.
      * exact (proj1 IHiff Hrest k s sn t Hs Hn Ht).
    + intros Hall.
      destruct (Hall 0 sent sent_num tags eq_refl eq_refl eq_refl) as [H1 H2].
      assert (Hrest : total_tokens (restore_all ps psn tagss) = total_tokens ps).
      { apply IHiff. intros k s sn t Hs Hn Ht. exact (Hall (S k) s sn t Hs Hn Ht). }
      lia.
Qed.

(** C6, amended. [tag_doc] returns one tagged sentence per sentence the
    tokenizer produced.  The tagged tokens never outnumber the processed
    tokens, and the two counts agree exactly when, in every sentence,
    neither the preserved sequence nor the tag sequence [predict] returned
    for that sentence in this run is shorter than the placeholder
    sequence. *)
Theorem tag_doc_counts
    (doc : string) (st : State) (sents : list (list string)) (w0 : World)
    (ps psn : list (list string)) (st1 : State)
    (td : list (list (string * string))) (st2 : State) :
  tokenize (processor (self st)) doc (world st) = (Ok sents, w0) ->
  _preprocess doc st = (Ok (ps, psn), st1) ->
  tag_doc doc st = (Ok td, st2) ->
  length td = length sents /\
  total_tokens td <= total_tokens ps /\
  exists tagss : list (list string),
    runs (fun sent => call (predict (model (self st)) sent)) ps st1 tagss st2 /\
    (total_tokens td = total_tokens ps <->
     forall k sent sent_num tags,
       ps !! k = Some sent -> psn !! k = Some sent_num -> tagss !! k = Some tags ->
       length sent <= length sent_num /\ length sent <= length tags).
Proof.
  intros Htok Hpre Htag.
  destruct (preprocess_zip _ _ _ _ _ Hpre) as [Hlen Hself].
  apply tag_doc_ok in Htag as (ps' & psn' & st1' & Hpre' & Hruns).
  rewrite Hpre in Hpre'. injection Hpre' as <- <- <-.
  apply preprocess_ok in Hpre
    as (sents' & w0' & pairs & Htok' & _ & _ & _ & Hl1 & Hl2 & _).
  rewrite Htok in Htok'. injection Htok' as <- <-.
  split.
  { rewrite (runs_length _ _ _ _ _ Hruns), zip_length. lia. }
  destruct (runs_tag_sentence_predict (self st) ps psn st1 td st2 Hlen Hself Hruns)
    as (tagss & Hpred & ->).
  assert (Hlt : length ps = length tagss)
    by (symmetry; eapply runs_length; eauto).
  destruct (restore_all_total ps psn tagss Hlen Hlt) as [Hle Hiff].
  split; [exact Hle|]. exists tagss. split; [exact Hpred | exact Hiff].
Qed.

End Alignment.

(** C3 as stated fails: with tracks of different lengths both methods
    return a document, one token short and with the numeral replaced by
    its neighbour. *)
Lemma tag_doc_mismatch_counterexample :
  ~ (forall (Y : External) (doc : string) (st : @State Y)
            (ps psn : list (list string)) (st1 : @State Y)
            (k : nat) (sent sent_num : list string),
        @_preprocess Y doc st = (Ok (ps, psn), st1) ->
        ps !! k = Some sent -> psn !! k = Some sent_num ->
        length sent <> length sent_num ->
        (exists e st', @tag_doc Y doc st = (Raise e, st')) /\
        (exists e st', @tag_docs Y [doc] st = (Raise e, st'))).
Proof.
  intros H.
  destruct (H Mock.drifting Mock.heated (Mock.start Mock.drifting tt tt 0)
              [["Fe2O3"; "was"; "heated"; "to"; "<nUm>"; "degrees"; "."]]
              [["Fe2O3"; "was"; "heated"; "to"; "degrees"; "."]]
              (Mock.start Mock.drifting tt tt 0) 0
              ["Fe2O3"; "was"; "heated"; "to"; "<nUm>"; "degrees"; "."]
              ["Fe2O3"; "was"; "heated"; "to"; "degrees"; "."]
              eq_refl eq_refl eq_refl ltac:(discriminate))
    as [(e & st' & Hrun) _].
  vm_compute in Hrun. discriminate.
Qed.

Lemma tag_doc_truncates_witness :
  @tag_doc Mock.drifting Mock.heated (Mock.start Mock.drifting tt tt 0)
  = (Ok [[("Fe2O3", "O"); ("was", "O"); ("heated", "O"); ("to", "O");
          ("degrees", "O"); ("degrees", "O")]],
     Mock.start Mock.drifting tt tt 1).
Proof.
  refine (proj1 (@tag_doc_truncates Mock.drifting Mock.heated
            (Mock.start Mock.drifting tt tt 0)
            [["Fe2O3"; "was"; "heated"; "to"; "<nUm>"; "degrees"; "."]]
            [["Fe2O3"; "was"; "heated"; "to"; "degrees"; "."]]
            (Mock.start Mock.drifting tt tt 0)
            [["O"; "O"; "O"; "O"; "O"; "O"; "O"]]
            (Mock.start Mock.drifting tt tt 1)
            eq_refl _)).
  eapply runs_cons; [reflexivity | apply runs_nil].
Defined.

Lemma tag_doc_propagates_predict_error_witness :
  @tag_doc Mock.flaky Mock.report (Mock.start Mock.flaky tt tt 0)
  = (Raise "ConnectionError: timed out", Mock.start Mock.flaky tt tt 2).
Proof.
  refine (proj1 (@tag_doc_propagates_predict_error Mock.flaky Mock.report
            (Mock.start Mock.flaky tt tt 0)
            [["Fe2O3"; "was"; "heated"; "."]; ["It"; "reached"; "<nUm>"; "degrees"; "."]]
            [["Fe2O3"; "was"; "heated"; "."]; ["It"; "reached"; "100"; "degrees"; "."]]
            (Mock.start Mock.flaky tt tt 0)
            [["Fe2O3"; "was"; "heated"; "."]]
            ["It"; "reached"; "<nUm>"; "degrees"; "."]
            []
            [["O"; "O"; "O"; "O"]]
            (Mock.start Mock.flaky tt tt 1)
            "ConnectionError: timed out" 2
            eq_refl eq_refl _ eq_refl)).
  eapply runs_cons; [reflexivity | apply runs_nil].
Defined.

(** C6 as stated fails: a [predict] that returns no tags leaves the tagged
    document with no tokens at all. *)
Lemma tag_doc_counts_counterexample :
  ~ (forall (Y : External) (doc : string) (st : @State Y)
            (sents : list (list string)) (w0 : @World Y)
            (ps psn : list (list string)) (st1 : @State Y)
            (td : list (list (string * string))) (st2 : @State Y),
        @tokenize Y (processor (self st)) doc (world st) = (Ok sents, w0) ->
        @_preprocess Y doc st = (Ok (ps, psn), st1) ->
        @tag_doc Y doc st = (Ok td, st2) ->
        length td = length sents /\ total_tokens td = total_tokens ps).
Proof.
  intros H.
  destruct (H Mock.short_tags Mock.heated (Mock.start Mock.short_tags tt tt 0)
              [["Fe2O3"; "was"; "heated"; "to"; "100"; "degrees"; "."]] 0
              [["Fe2O3"; "was"; "heated"; "to"; "<nUm>"; "degrees"; "."]]
              [["Fe2O3"; "was"; "heated"; "to"; "100"; "degrees"; "."]]
              (Mock.start Mock.short_tags tt tt 0)
              [[]] (Mock.start Mock.short_tags tt tt 1)
              eq_refl eq_refl eq_refl)
    as [_ Htotal].
  vm_compute in Htotal. discriminate.
Qed.

Lemma tag_doc_counts_witness :
  length [[("Fe2O3", "O"); ("was", "O"); ("heated", "O"); (".", "O")];
          [("It", "O"); ("reached", "O"); ("100", "O"); ("degrees", "O"); (".", "O")]]
  = 2 /\
  total_tokens [[("Fe2O3", "O"); ("was", "O"); ("heated", "O"); (".", "O")];
                [("It", "O"); ("reached", "O"); ("100", "O"); ("degrees", "O"); (".", "O")]]
  <= total_tokens [["Fe2O3"; "was"; "heated"; "."];
                   ["It"; "reached"; "<nUm>"; "degrees"; "."]].
Proof.
  destruct (@tag_doc_counts Mock.sound Mock.report (Mock.start Mock.sound tt tt 0)
              [["Fe2O3"; "was"; "heated"; "."]; ["It"; "reached"; "100"; "degrees"; "."]]
              0
              [["Fe2O3"; "was"; "heated"; "."]; ["It"; "reached"; "<nUm>"; "degrees"; "."]]
              [["Fe2O3"; "was"; "heated"; "."]; ["It"; "reached"; "100"; "degrees"; "."]]
              (Mock.start Mock.sound tt tt 0)
              [[("Fe2O3", "O"); ("was", "O"); ("heated", "O"); (".", "O")];
               [("It", "O"); ("reached", "O"); ("100", "O"); ("degrees", "O"); (".", "O")]]
              (Mock.start Mock.sound tt tt 2)
              eq_refl eq_refl eq_refl)
    as (Hlen & Hle & _).
  split; [exact Hlen | exact Hle].
Defined.

(** ** Batch methods *)

Section Batch.
Context {X : External}.

(** C5. [tag_docs] and [as_iob] are the comprehension
    [[tag_doc(d) for d in docs]]: same result, same exception, same final
    state.  When it returns there is one tagged document per input document,
    in input order, the [k]-th being what [tag_doc] returns for the [k]-th
    document at the moment its turn comes, on the same classifier.  Where
    tagging a document leaves the world as it was, the batch result is the
    list of what [tag_doc] returns for each document on its own. *)
Theorem tag_docs_is_comprehension (docs : list string) (st : State) :
  tag_docs docs st = comprehension tag_doc docs st /\
  as_iob docs st = comprehension tag_doc docs st /\
  (forall tds st',
      tag_docs docs st = (Ok tds, st') ->
      length tds = length docs /\
      forall k td, tds !! k = Some td ->
        exists d sk sk',
          docs !! k = Some d /\ tag_doc d sk = (Ok td, sk') /\ self sk = self st) /\
  (forall tds,
      Forall2 (fun d td => tag_doc d st = (Ok td, st)) docs tds ->
      tag_docs docs st = (Ok tds, st)).
Proof.
  split; [apply tag_docs_collect|].
  split; [unfold as_iob; apply tag_docs_collect|].
  split; [|intros tds H; rewrite tag_docs_collect; now apply comprehension_stable].
  intros tds st' H. rewrite tag_docs_collect in H.
  apply comprehension_runs in H. split.
  - eapply runs_length; eauto.
  - intros k td Hk.
    eapply runs_lookup_self in Hk; [|apply frame_tag_doc|exact H].
    exact Hk.
Qed.

Lemma concatenate_loop_collect tagged_docs st :
  for_in tagged_docs
    (fun doc concatenated =>
       n <- getattr normalizer ;;
       conc <- call (_concatenate_ents n doc) ;;
       ret (concatenated ++ [conc])) [] st
  = comprehension concatenate_entities tagged_docs st.
Proof.
  rewrite (for_in_ext _ (fun d acc => y <- concatenate_entities d ;; ret (acc ++ [y]))).
  - rewrite for_in_collect. simpl. apply bind_ret_r.
  - intros d acc s. unfold concatenate_entities. now rewrite bind_assoc.
Qed.

(** C7. [as_concatenated] tags the documents with [tag_docs] and then is
    the comprehension [[concatenate_entities(td) for td in tagged_docs]];
    when it returns, there is one concatenated document per input
    document. *)
Theorem as_concatenated_is_comprehension (docs : list string) (st : State) :
  as_concatenated docs st
  = (tagged_docs <- tag_docs docs ;;
     comprehension concatenate_entities tagged_docs) st /\
  (forall r st',
      as_concatenated docs st = (Ok r, st') ->
      length r = length docs /\
      exists tds st1,
        tag_docs docs st = (Ok tds, st1) /\
        runs concatenate_entities tds st1 r st').
Proof.
  assert (Heq : as_concatenated docs st
                = (tagged_docs <- tag_docs docs ;;
                   comprehension concatenate_entities tagged_docs) st).
  { unfold as_concatenated. apply bind_ext. intros tds s.
    apply concatenate_loop_collect. }
  split; [exact Heq|].
  intros r st' H. rewrite Heq in H.
  apply bind_inv_ok in H as (tds & st1 & Htag & Hconc).
  apply comprehension_runs in Hconc.
  split.
  - rewrite (runs_length _ _ _ _ _ Hconc).
    rewrite tag_docs_collect in Htag. apply comprehension_runs in Htag.
    eapply runs_length; eauto.
  - now exists tds, st1.
Qed.

(** C8. [normalize_entities] calls the batch [normalize] on the singleton
    batches [[doc]] and [[tagged_doc]] and returns the first element of its
    result; [as_normalized] returns what the batch [normalize] gives for
    [docs] and [tag_docs(docs)], both in the order supplied. *)
Theorem normalize_delegates
    (doc : string) (tagged_doc : list (list (string * string)))
    (docs : list string) (st : State) :
  normalize_entities doc tagged_doc st
  = match normalize (normalizer (self st)) [doc] [tagged_doc] (world st) with
    | (Ok (first :: _), w) => (Ok first, {| self := self st; world := w |})
    | (Ok [], w) => (Raise IndexError, {| self := self st; world := w |})
    | (Raise e, w) => (Raise e, {| self := self st; world := w |})
    end /\
  as_normalized docs st
  = match tag_docs docs st with
    | (Ok tagged_docs, st1) =>
        match normalize (normalizer (self st)) docs tagged_docs (world st1) with
        | (r, w) => (r, {| self := self st; world := w |})
        end
    | (Raise e, st1) => (Raise e, st1)
    end.
Proof.
  split.
  - unfold normalize_entities, bind, getattr, call. simpl.
    destruct (normalize (normalizer (self st)) [doc] [tagged_doc] (world st))
      as [[[|first rest]|e] w]; reflexivity.
  - unfold as_normalized, bind, getattr, call.
    pose proof (frame_tag_docs docs st) as Hself.
    destruct (tag_docs docs st) as [[tds|e] st1]; [|reflexivity].
    simpl in *. rewrite Hself. reflexivity.
Qed.

End Batch.

Lemma tag_docs_is_comprehension_witness :
  length [[[("Fe2O3", "O"); ("was", "O"); ("heated", "O"); (".", "O")];
           [("It", "O"); ("reached", "O"); ("100", "O"); ("degrees", "O"); (".", "O")]];
          [[("Fe2O3", "O"); ("was", "O"); ("heated", "O"); ("to", "O");
            ("100", "O"); ("degrees", "O"); (".", "O")]]]
  = length [Mock.report; Mock.heated] /\
  @tag_docs Mock.stateless [Mock.heated; Mock.heated] (Mock.start Mock.stateless tt tt 0)
  = (Ok [[[("Fe2O3", "O"); ("was", "O"); ("heated", "O"); ("to", "O");
           ("100", "O"); ("degrees", "O"); (".", "O")]];
         [[("Fe2O3", "O"); ("was", "O"); ("heated", "O"); ("to", "O");
           ("100", "O"); ("degrees", "O"); (".", "O")]]],
     Mock.start Mock.stateless tt tt 0).
Proof.
  split.
  - exact (proj1 (proj1 (proj2 (proj2 (@tag_docs_is_comprehension Mock.sound
             [Mock.report; Mock.heated] (Mock.start Mock.sound tt tt 0))))
           _ (Mock.start Mock.sound tt tt 3) eq_refl)).
  - apply (proj2 (proj2 (proj2 (@tag_docs_is_comprehension Mock.stateless
             [Mock.heated; Mock.heated] (Mock.start Mock.stateless tt tt 0))))).
    repeat constructor.
Defined.

Lemma as_concatenated_is_comprehension_witness :
  length [[[("Fe2O3", "O"); ("was", "O"); ("heated", "O"); ("to", "O");
            ("100", "O"); ("degrees", "O"); (".", "O")]]]
  = length [Mock.heated].
Proof.
  exact (proj1 (proj2 (@as_concatenated_is_comprehension Mock.sound
           [Mock.heated] (Mock.start Mock.sound tt tt 0))
         _ (Mock.start Mock.sound tt tt 1) eq_refl)).
Defined.

(** ** Construction and the frame of the public operations *)

Section Lifecycle.
Context {X : External}.

Lemma bind_inv_ok_unit {S B} (m : St S unit) (k : unit -> St S B) st b st2 :
  bind m k st = (Ok b, st2) ->
  exists st1, m st = (Ok tt, st1) /\ k tt st1 = (Ok b, st2).
Proof.
  intros H. apply bind_inv_ok in H as ([] & st1 & Hm & Hk). now exists st1.
Qed.

Lemma Configure_ok w c w' :
  Configure w = (Ok c, w') ->
  dir_final_model c = path_join (path_join LOCAL_DIR "models/ner") "model.weights/".
Proof.
  unfold Configure. intros H.
  apply bind_inv_ok_unit in H as (w1 & _ & H).
  unfold ret in H. injection H as <- _. reflexivity.
Qed.

(** C9. A constructed classifier holds the Remote model exactly when
    [TF_SERVING_URL] is in the environment, built on that address;
    otherwise it holds the Local model, which was built and whose session
    was then restored from the configuration's [dir_final_model],
    [<LOCAL_DIR>/models/ner/model.weights/].  No sequence of public
    operations changes the [model] attribute afterwards. *)
Theorem init_selects_variant
    (environ : gmap string string) (w : World) (c : NERClassifier) (w' : World) :
  __init__ environ w = (Ok c, w') ->
  api_url c = environ !! "TF_SERVING_URL" /\
  (is_remote (model c) = true <-> is_Some (environ !! "TF_SERVING_URL")) /\
  (forall url, environ !! "TF_SERVING_URL" = Some url ->
               model c = NERServingModel (config c) url) /\
  (environ !! "TF_SERVING_URL" = None ->
     model c = NERModel (config c) /\
     dir_final_model (config c)
     = path_join (path_join LOCAL_DIR "models/ner") "model.weights/" /\
     exists w1 w2 w3,
       build (model c) w1 = (Ok tt, w2) /\
       restore_session (model c) (dir_final_model (config c)) w2 = (Ok tt, w3)) /\
  (forall (ops : list Operation) (st : State),
      self st = c -> model (self (exec_all ops st)) = model c).
Proof.
  unfold __init__. intros H.
  apply bind_inv_ok in H as (cfg & wa & Hcfg & H).
  apply bind_inv_ok_unit in H as (wb & Hreset & H).
  apply bind_inv_ok in H as (m & wc & Hmodel & H).
  apply bind_inv_ok in H as (nz & wd & Hnz & H).
  apply bind_inv_ok in H as (pr & we & Hpr & H).
  unfold ret in H. injection H as <- <-. simpl.
  apply Configure_ok in Hcfg.
  split; [reflexivity|].
  destruct (environ !! "TF_SERVING_URL") as [url|] eqn:Henv.
  - apply bind_inv_ok_unit in Hmodel as (w1 & _ & Hm).
    unfold ret in Hm. injection Hm as <- _. simpl.
    split; [split; eauto|].
    split; [intros url' [= <-]; reflexivity|].
    split; [discriminate|].
    intros ops st Hst. now rewrite exec_all_self, Hst.
  - apply bind_inv_ok_unit in Hmodel as (w1 & _ & Hm). simpl in Hm.
    apply bind_inv_ok_unit in Hm as (w2 & Hbuild & Hm).
    apply bind_inv_ok_unit in Hm as (w3 & Hrestore & Hm).
    unfold ret in Hm. injection Hm as <- _. simpl.
    split; [split; [discriminate | intros [? ?]; discriminate]|].
    split; [discriminate|].
    split.
    + intros _. split; [reflexivity|]. split; [exact Hcfg|].
      now exists w1, w2, w3.
    + intros ops st Hst. now rewrite exec_all_self, Hst.
Qed.

(** C10. Whatever sequence of public operations runs, and whether each
    returns or raises, the classifier's [config], [api_url], [model],
    [normalizer] and [processor] are afterwards what they were; the same
    holds for [_preprocess].  Accumulators start empty in every call:
    tagging a batch in two calls gives the two halves of what tagging it in
    one call gives. *)
Theorem operations_leave_classifier_unchanged
    (ops : list Operation) (text : string) (docs1 docs2 : list string) (st : State) :
  (config (self (exec_all ops st)) = config (self st) /\
   api_url (self (exec_all ops st)) = api_url (self st) /\
   model (self (exec_all ops st)) = model (self st) /\
   normalizer (self (exec_all ops st)) = normalizer (self st) /\
   processor (self (exec_all ops st)) = processor (self st)) /\
  self (snd (_preprocess text st)) = self st /\
  tag_docs (docs1 ++ docs2) st
  = (a <- tag_docs docs1 ;; b <- tag_docs docs2 ;; ret (a ++ b)) st.
Proof.
  split; [rewrite exec_all_self; auto|].
  split; [apply frame_preprocess|].
  rewrite tag_docs_collect, comprehension_app.
  unfold bind. rewrite tag_docs_collect.
  destruct (comprehension tag_doc docs1 st) as [[a|e] st1]; [|reflexivity].
  now rewrite tag_docs_collect.
Qed.

End Lifecycle.

Lemma init_selects_variant_witness :
  is_remote (NERModel Mock.local_config) = true <->
  is_Some ((∅ : gmap string string) !! "TF_SERVING_URL").
Proof.
  exact (proj1 (proj2 (@init_selects_variant Mock.sound ∅ 0
           (Mock.classifier Mock.sound tt tt) 0 eq_refl))).
Defined.

(** * Further properties of the pipeline *)

(** ** Preprocessing *)

Section Preprocessing.
Context {X : External}.

(** [_preprocess] returns two tracks with one entry per tokenized sentence,
    in sentence order; entry [k] of the first is what
    [process(sent_k)] returned and entry [k] of the second what
    [process(sent_k, convert_num=False)] returned, called right after it. *)
Theorem preprocess_tracks_parallel
    (text : string) (st : State) (ps psn : list (list string)) (st1 : State) :
  _preprocess text st = (Ok (ps, psn), st1) ->
  exists sents w0,
    tokenize (processor (self st)) text (world st) = (Ok sents, w0) /\
    length ps = length sents /\ length psn = length sents /\
    forall k sent, sents !! k = Some sent ->
      exists processed processed_num a a_num w1 w2 w3,
        ps !! k = Some processed /\ psn !! k = Some processed_num /\
        process (processor (self st)) sent true w1 = (Ok (processed, a), w2) /\
        process (processor (self st)) sent false w2 = (Ok (processed_num, a_num), w3).
Proof.
  intros H. apply preprocess_ok in H
    as (sents & w0 & pairs & Htok & Hruns & -> & -> & Hl1 & Hl2 & Hself).
  exists sents, w0. repeat split; auto.
  intros k sent Hk.
  destruct (runs_lookup_fwd _ _ _ _ _ frame_split_tracks Hruns k sent Hk)
    as (pair & sk & sk' & Hpair & Hsplit & Hs).
  apply split_tracks_ok in Hsplit as (a & w1 & a_num & H1 & H2 & _).
  simpl in Hs. rewrite Hs in H1, H2.
  exists (fst pair), (snd pair), a, a_num, (world sk), w1, (world sk').
  rewrite !list_lookup_fmap, Hpair. simpl. auto.
Qed.

(** A tokenizer failure ends [_preprocess], [tag_doc] and every batch method
    with that exception, in the world the tokenizer left: nothing is
    processed, predicted, concatenated or normalized. *)
Theorem tokenize_error_propagates
    (doc : string) (rest : list string) (st : State) (e : Exn) (w : World) :
  tokenize (processor (self st)) doc (world st) = (Raise e, w) ->
  _preprocess doc st = (Raise e, {| self := self st; world := w |}) /\
  tag_doc doc st = (Raise e, {| self := self st; world := w |}) /\
  tag_docs (doc :: rest) st = (Raise e, {| self := self st; world := w |}) /\
  as_iob (doc :: rest) st = (Raise e, {| self := self st; world := w |}) /\
  as_concatenated (doc :: rest) st = (Raise e, {| self := self st; world := w |}) /\
  as_normalized (doc :: rest) st = (Raise e, {| self := self st; world := w |}).
Proof.
  intros Htok.
  assert (Hpre : _preprocess doc st = (Raise e, {| self := self st; world := w |})).
  { rewrite preprocess_collect. apply bind_raise. unfold call. now rewrite Htok. }
  assert (Htag : tag_doc doc st = (Raise e, {| self := self st; world := w |})).
  { rewrite tag_doc_collect. now apply bind_raise. }
  assert (Hbatch : tag_docs (doc :: rest) st
                   = (Raise e, {| self := self st; world := w |})).
  { rewrite tag_docs_collect. simpl. now apply bind_raise. }
  repeat split; auto.
  - unfold as_concatenated. now apply bind_raise.
  - unfold as_normalized. now apply bind_raise.
Qed.

(** When [process] raises on a sentence, in either pass, [_preprocess] and
    [tag_doc] end with that exception; the sentences after it are not
    processed and [predict] is not called at all. *)
Theorem process_error_propagates
    (doc : string) (st : State) (sents : list (list string)) (w0 : World)
    (pre : list (list string)) (sent : list string) (post : list (list string))
    (pairs : list (list string * list string)) (st1 : State) (e : Exn) (w2 : World) :
  tokenize (processor (self st)) doc (world st) = (Ok sents, w0) ->
  sents = pre ++ sent :: post ->
  runs split_tracks pre {| self := self st; world := w0 |} pairs st1 ->
  (process (processor (self st)) sent true (world st1) = (Raise e, w2) \/
   exists r w1,
     process (processor (self st)) sent true (world st1) = (Ok r, w1) /\
     process (processor (self st)) sent false w1 = (Raise e, w2)) ->
  _preprocess doc st = (Raise e, {| self := self st; world := w2 |}) /\
  tag_doc doc st = (Raise e, {| self := self st; world := w2 |}).
Proof.
  intros Htok -> Hruns Hraise.
  assert (Hs1 : self st1 = self st)
    by exact (runs_self _ _ _ _ _ frame_split_tracks Hruns).
  assert (Hsplit : split_tracks sent st1 = (Raise e, {| self := self st; world := w2 |})).
  { unfold split_tracks, bind, getattr, call, ret. simpl. rewrite Hs1.
    destruct Hraise as [H1 | (r & w1 & H1 & H2)].
    - now rewrite H1.
    - rewrite H1. simpl. now rewrite H2. }
  assert (Hpre : _preprocess doc st = (Raise e, {| self := self st; world := w2 |})).
  { rewrite preprocess_collect.
    erewrite bind_ok; [|unfold call; rewrite Htok; reflexivity].
    apply bind_raise. eapply comprehension_raise_at; eauto. }
  split; [exact Hpre|]. rewrite tag_doc_collect. now apply bind_raise.
Qed.

(** A document the tokenizer splits into no sentences is tagged as the empty
    document, without any call to [process] or [predict]; conversely
    [tag_doc] returns the empty document only for such a document. *)
Theorem tag_doc_no_sentences
    (doc : string) (st : State) (sents : list (list string)) (w : World) :
  tokenize (processor (self st)) doc (world st) = (Ok sents, w) ->
  (sents = [] ->
   _preprocess doc st = (Ok ([], []), {| self := self st; world := w |}) /\
   tag_doc doc st = (Ok [], {| self := self st; world := w |})) /\
  (forall st', tag_doc doc st = (Ok [], st') -> sents = []).
Proof.
  intros Htok. split.
  - intros ->.
    assert (Hpre : _preprocess doc st = (Ok ([], []), {| self := self st; world := w |})).
    { rewrite preprocess_collect.
      erewrite bind_ok; [|unfold call; rewrite Htok; reflexivity]. reflexivity. }
    split; [exact Hpre|].
    rewrite tag_doc_collect. erewrite bind_ok; [|exact Hpre]. reflexivity.
  - intros st' Htag.
    apply tag_doc_ok in Htag as (ps & psn & st1 & Hpre & Hruns).
    apply runs_length in Hruns. rewrite zip_length in Hruns.
    apply preprocess_ok in Hpre
      as (sents' & w0 & pairs & Htok' & _ & _ & _ & Hl1 & Hl2 & _).
    rewrite Htok in Htok'. injection Htok' as <- <-.
    simpl in Hruns. destruct sents; [reflexivity|]. simpl in *. lia.
Qed.

End Preprocessing.

Lemma preprocess_tracks_parallel_witness :
  exists sents w0,
    @tokenize Mock.sound tt Mock.report 0 = (Ok sents, w0) /\
    length [["Fe2O3"; "was"; "heated"; "."]; ["It"; "reached"; "<nUm>"; "degrees"; "."]]
    = length sents.
Proof.
  destruct (@preprocess_tracks_parallel Mock.sound Mock.report
              (Mock.start Mock.sound tt tt 0)
              [["Fe2O3"; "was"; "heated"; "."]; ["It"; "reached"; "<nUm>"; "degrees"; "."]]
              [["Fe2O3"; "was"; "heated"; "."]; ["It"; "reached"; "100"; "degrees"; "."]]
              (Mock.start Mock.sound tt tt 0) eq_refl)
    as (sents & w0 & Htok & Hl1 & _).
  exists sents, w0. split; [exact Htok | exact Hl1].
Defined.

Lemma tokenize_error_propagates_witness :
  @tag_docs Mock.no_tokenizer [Mock.heated; Mock.report]
    (Mock.start Mock.no_tokenizer tt tt 0)
  = (Raise "TokenizerError", Mock.start Mock.no_tokenizer tt tt 1).
Proof.
  exact (proj1 (proj2 (proj2 (@tokenize_error_propagates Mock.no_tokenizer
           Mock.heated [Mock.report] (Mock.start Mock.no_tokenizer tt tt 0)
           "TokenizerError" 1 eq_refl)))).
Defined.

Lemma process_error_propagates_witness :
  @tag_doc Mock.strict_processor Mock.report (Mock.start Mock.strict_processor tt tt 0)
  = (Raise "ValueError: numeral", Mock.start Mock.strict_processor tt tt 4).
Proof.
  refine (proj2 (@process_error_propagates Mock.strict_processor Mock.report
            (Mock.start Mock.strict_processor tt tt 0)
            [["Fe2O3"; "was"; "heated"; "."]; ["It"; "reached"; "100"; "degrees"; "."]]
            0
            [["Fe2O3"; "was"; "heated"; "."]]
            ["It"; "reached"; "100"; "degrees"; "."]
            []
            [(["Fe2O3"; "was"; "heated"; "."], ["Fe2O3"; "was"; "heated"; "."])]
            (Mock.start Mock.strict_processor tt tt 2)
            "ValueError: numeral" 4
            eq_refl eq_refl _ _)).
  - eapply runs_cons; [reflexivity | apply runs_nil].
  - right. exists (["It"; "reached"; "<nUm>"; "degrees"; "."], tt), 3.
    split; reflexivity.
Defined.

Lemma tag_doc_no_sentences_witness :
  @tag_doc Mock.sound "" (Mock.start Mock.sound tt tt 0)
  = (Ok [], Mock.start Mock.sound tt tt 0).
Proof.
  exact (proj2 (proj1 (@tag_doc_no_sentences Mock.sound ""
           (Mock.start Mock.sound tt tt 0) [] 0 eq_refl) eq_refl)).
Defined.

(** ** Tagging, continued *)

Section TaggingMore.
Context {X : External}.

(** Once preprocessing has returned, [tag_doc] returns a document exactly
    when [predict] returns for every sentence of the placeholder track,
    called once per sentence, in order, each call in the world the previous
    one left; the document is then the tracks restored against those tags. *)
Theorem tag_doc_returns_iff_predict_returns
    (doc : string) (st : State) (ps psn : list (list string)) (st1 : State)
    (td : list (list (string * string))) (st2 : State) :
  _preprocess doc st = (Ok (ps, psn), st1) ->
  (tag_doc doc st = (Ok td, st2) <->
   exists tagss,
     runs (fun sent => call (predict (model (self st)) sent)) ps st1 tagss st2 /\
     td = restore_all ps psn tagss).
Proof.
  intros Hpre.
  destruct (preprocess_zip _ _ _ _ _ Hpre) as [Hlen Hself].
  rewrite tag_doc_collect, (bind_ok _ _ _ _ _ Hpre). simpl.
  rewrite comprehension_runs. split.
  - intros Hr. now apply runs_tag_sentence_predict.
  - intros (tagss & Hr & ->). now apply (runs_predict_tag_sentence (self st)).
Qed.

Lemma restore_numbers_aligned sent sent_num :
  differ_at_numerals_only sent sent_num ->
  forall tags, restore_numbers sent sent_num tags = zip sent_num tags.
Proof.
  unfold differ_at_numerals_only, restore_numbers, zip.
  induction 1 as [|p n sent sent_num Hpn HF IH]; intros tags.
  - reflexivity.
  - destruct tags as [|t tags]; [reflexivity|]. simpl. rewrite IH.
    destruct (String.eqb p "<nUm>") eqn:E; simpl; [reflexivity|].
    apply String.eqb_neq in E. now rewrite (Hpn E).
Qed.

(** When the two tracks of every sentence differ only where the placeholder
    track holds the sentinel, each tagged sentence is the numeric-preserved
    sentence zipped with the tags predicted for the placeholder sentence:
    no sentinel is left unless the preserved text holds it, and no other
    token is changed. *)
Theorem tag_doc_shows_preserved_track
    (doc : string) (st : State) (ps psn : list (list string)) (st1 : State)
    (td : list (list (string * string))) (st2 : State) :
  _preprocess doc st = (Ok (ps, psn), st1) ->
  Forall2 differ_at_numerals_only ps psn ->
  tag_doc doc st = (Ok td, st2) ->
  length td = length psn /\
  forall k ts, td !! k = Some ts ->
    exists sent sent_num tags w w',
      ps !! k = Some sent /\ psn !! k = Some sent_num /\
      predict (model (self st)) sent w = (Ok tags, w') /\
      ts = zip sent_num tags /\
      map fst ts = take (length tags) sent_num.
Proof.
  intros Hpre Hal Htag.
  destruct (preprocess_zip _ _ _ _ _ Hpre) as [Hlen Hself].
  apply tag_doc_ok in Htag as (ps' & psn' & st1' & Hpre' & Hruns).
  rewrite Hpre in Hpre'. injection Hpre' as <- <- <-.
  split.
  { rewrite (runs_length _ _ _ _ _ Hruns), zip_length. lia. }
  intros k ts Hk.
  destruct (runs_lookup_self _ _ _ _ _ frame_tag_sentence Hruns k ts Hk)
    as ([sent sent_num] & sk & sk' & Hpair & Hrun & Hs).
  apply zip_lookup in Hpair as [Hsk Hnk].
  rewrite tag_sentence_run in Hrun. simpl in Hrun.
  destruct (predict (model (self sk)) sent (world sk)) as [[tags|e] w'] eqn:Hp;
    [|discriminate].
  injection Hrun as <- _.
  rewrite Hs, Hself in Hp.
  assert (Ha : differ_at_numerals_only sent sent_num).
  { eapply Forall2_lookup_lr; eauto. }
  exists sent, sent_num, tags, (world sk), w'.
  rewrite (restore_numbers_aligned _ _ Ha).
  repeat split; auto.
  unfold zip. clear. revert tags.
  induction sent_num as [|n l IH]; intros [|t tags]; simpl; auto.
  now rewrite IH.
Qed.

Lemma zip_fst_take {A B} (xs : list A) (ys : list B) :
  map fst (zip xs ys) = take (length ys) xs.
Proof.
  unfold zip. revert ys. induction xs as [|x xs IH]; intros [|y ys]; simpl; auto.
  now rewrite IH.
Qed.

Lemma zip_snd_take {A B} (xs : list A) (ys : list B) :
  map snd (zip xs ys) = take (length xs) ys.
Proof.
  unfold zip. revert ys. induction xs as [|x xs IH]; intros [|y ys]; simpl; auto.
  now rewrite IH.
Qed.

(** What [tag_sequence] returns holds the input tokens, unchanged and in
    order, up to the number of tags [predict] gave, beside those tags up to
    the number of tokens: never a token or tag of its own, never more pairs
    than tokens; on an empty sequence it returns the empty list. *)
Theorem tag_sequence_prefixes
    (sequence : list string) (st : State) (r : list (string * string)) (st' : State) :
  tag_sequence sequence st = (Ok r, st') ->
  exists tags,
    predict (model (self st)) sequence (world st) = (Ok tags, world st') /\
    map fst r = take (length tags) sequence /\
    map snd r = take (length sequence) tags /\
    length r <= length sequence /\
    (sequence = [] -> r = []).
Proof.
  rewrite tag_sequence_run.
  destruct (predict (model (self st)) sequence (world st)) as [[tags|e] w];
    [|discriminate].
  intros [= <- <-]. exists tags. simpl.
  split; [reflexivity|].
  split; [apply zip_fst_take|].
  split; [apply zip_snd_take|].
  split; [rewrite zip_length; lia|].
  now intros ->.
Qed.

End TaggingMore.

Lemma tag_doc_returns_iff_predict_returns_witness :
  @tag_doc Mock.sound Mock.heated (Mock.start Mock.sound tt tt 0)
  = (Ok [[("Fe2O3", "O"); ("was", "O"); ("heated", "O"); ("to", "O");
          ("100", "O"); ("degrees", "O"); (".", "O")]],
     Mock.start Mock.sound tt tt 1).
Proof.
  apply (proj2 (@tag_doc_returns_iff_predict_returns Mock.sound Mock.heated
           (Mock.start Mock.sound tt tt 0)
           [["Fe2O3"; "was"; "heated"; "to"; "<nUm>"; "degrees"; "."]]
           [["Fe2O3"; "was"; "heated"; "to"; "100"; "degrees"; "."]]
           (Mock.start Mock.sound tt tt 0) _ _ eq_refl)).
  exists [["O"; "O"; "O"; "O"; "O"; "O"; "O"]]. split; [|reflexivity].
  eapply runs_cons; [reflexivity | apply runs_nil].
Defined.

Lemma tag_doc_shows_preserved_track_witness :
  length [[("Fe2O3", "O"); ("was", "O"); ("heated", "O"); ("to", "O");
           ("100", "O"); ("degrees", "O"); (".", "O")]]
  = length [["Fe2O3"; "was"; "heated"; "to"; "100"; "degrees"; "."]].
Proof.
  refine (proj1 (@tag_doc_shows_preserved_track Mock.sound Mock.heated
            (Mock.start Mock.sound tt tt 0)
            [["Fe2O3"; "was"; "heated"; "to"; "<nUm>"; "degrees"; "."]]
            [["Fe2O3"; "was"; "heated"; "to"; "100"; "degrees"; "."]]
            (Mock.start Mock.sound tt tt 0)
            [[("Fe2O3", "O"); ("was", "O"); ("heated", "O"); ("to", "O");
              ("100", "O"); ("degrees", "O"); (".", "O")]]
            (Mock.start Mock.sound tt tt 1)
            eq_refl _ eq_refl)).
  repeat constructor; intros H; exfalso; apply H; reflexivity.
Defined.

Lemma tag_sequence_prefixes_witness :
  exists tags,
    @predict Mock.sound (NERModel Mock.local_config) ["Fe2O3"; "was"] 0 = (Ok tags, 1) /\
    map fst [("Fe2O3", "O"); ("was", "O")] = take (length tags) ["Fe2O3"; "was"].
Proof.
  destruct (@tag_sequence_prefixes Mock.sound ["Fe2O3"; "was"]
              (Mock.start Mock.sound tt tt 0)
              [("Fe2O3", "O"); ("was", "O")] (Mock.start Mock.sound tt tt 1) eq_refl)
    as (tags & Hp & Hfst & _).
  exists tags. split; [exact Hp | exact Hfst].
Defined.

(** ** Batches, continued *)

Section BatchMore.
Context {X : External}.

(** A batch fails as a whole: when [tag_doc] raises on a document, the
    documents before it having been tagged, every batch method ends with
    that exception; the tagged documents obtained so far are not returned
    and the documents after it are not touched. *)
Theorem tag_docs_fails_fast
    (pre : list string) (d : string) (post : list string) (st : State)
    (tds : list (list (list (string * string)))) (st1 : State) (e : Exn) (st2 : State) :
  runs tag_doc pre st tds st1 ->
  tag_doc d st1 = (Raise e, st2) ->
  tag_docs (pre ++ d :: post) st = (Raise e, st2) /\
  as_iob (pre ++ d :: post) st = (Raise e, st2) /\
  as_concatenated (pre ++ d :: post) st = (Raise e, st2) /\
  as_normalized (pre ++ d :: post) st = (Raise e, st2).
Proof.
  intros Hruns Hraise.
  assert (H : tag_docs (pre ++ d :: post) st = (Raise e, st2)).
  { rewrite tag_docs_collect. eapply comprehension_raise_at; eauto. }
  split; [exact H|]. split; [exact H|]. split.
  - unfold as_concatenated. now apply bind_raise.
  - unfold as_normalized. now apply bind_raise.
Qed.

(** When [as_normalized] returns, [normalize] was given the documents as
    supplied together with exactly one tagged document per document, the
    result of [tag_docs], and its answer is returned as it is. *)
Theorem as_normalized_passes_aligned_batch
    (docs : list string) (st : State) (r : list Normalized) (st' : State) :
  as_normalized docs st = (Ok r, st') ->
  exists tds st1,
    tag_docs docs st = (Ok tds, st1) /\
    length tds = length docs /\
    normalize (normalizer (self st)) docs tds (world st1) = (Ok r, world st') /\
    self st' = self st.
Proof.
  unfold as_normalized. intros H.
  apply bind_inv_ok in H as (tds & st1 & Htag & H).
  pose proof (frame_tag_docs docs st) as Hself. rewrite Htag in Hself. simpl in Hself.
  unfold bind, getattr, call in H. rewrite Hself in H.
  destruct (normalize (normalizer (self st)) docs tds (world st1)) as [r' w] eqn:Hn.
  injection H as -> <-.
  exists tds, st1. repeat split; auto.
  rewrite tag_docs_collect in Htag. apply comprehension_runs in Htag.
  eapply runs_length; eauto.
Qed.

End BatchMore.

Lemma tag_docs_fails_fast_witness :
  @tag_docs Mock.flaky [Mock.plain; Mock.heated; Mock.plain]
    (Mock.start Mock.flaky tt tt 0)
  = (Raise "ConnectionError: timed out", Mock.start Mock.flaky tt tt 2).
Proof.
  refine (proj1 (@tag_docs_fails_fast Mock.flaky [Mock.plain] Mock.heated [Mock.plain]
            (Mock.start Mock.flaky tt tt 0)
            [[[("Fe2O3", "O"); ("was", "O"); ("heated", "O"); (".", "O")]]]
            (Mock.start Mock.flaky tt tt 1)
            "ConnectionError: timed out" (Mock.start Mock.flaky tt tt 2)
            _ eq_refl)).
  eapply runs_cons; [reflexivity | apply runs_nil].
Defined.

Lemma as_normalized_passes_aligned_batch_witness :
  exists tds st1,
    @tag_docs Mock.sound [Mock.plain; Mock.heated] (Mock.start Mock.sound tt tt 0)
    = (Ok tds, st1) /\
    length tds = 2.
Proof.
  destruct (@as_normalized_passes_aligned_batch Mock.sound [Mock.plain; Mock.heated]
              (Mock.start Mock.sound tt tt 0)
              [[[("Fe2O3", "O"); ("was", "O"); ("heated", "O"); (".", "O")]];
               [[("Fe2O3", "O"); ("was", "O"); ("heated", "O"); ("to", "O");
                 ("100", "O"); ("degrees", "O"); (".", "O")]]]
              (Mock.start Mock.sound tt tt 2) eq_refl)
    as (tds & st1 & Htag & Hlen & _).
  exists tds, st1. split; [exact Htag | exact Hlen].
Defined.

(** ** Configuration and construction *)

Section Construction.
Context {X : External}.

Lemma ends_with_slash_cons c s :
  s <> "" -> ends_with_slash (String c s) = ends_with_slash s.
Proof. destruct s; [congruence | reflexivity]. Qed.

Lemma ends_with_slash_models_ner pre :
  ends_with_slash (pre +:+ "models/ner") = false.
Proof.
  induction pre as [|c pre IH]; [reflexivity|].
  change (String c pre +:+ "models/ner") with (String c (pre +:+ "models/ner")).
  rewrite ends_with_slash_cons; [exact IH|].
  destruct pre; discriminate.
Qed.

Lemma string_app_assoc (a b c : string) :
  (a +:+ b) +:+ c = a +:+ (b +:+ c).
Proof.
  induction a as [|x a IH]; [reflexivity|].
  change (String x ((a +:+ b) +:+ c) = String x (a +:+ (b +:+ c))).
  now rewrite IH.
Qed.

Lemma posixpath_join_models_ner a :
  exists pre, posixpath_join a "models/ner" = pre +:+ "models/ner".
Proof.
  unfold posixpath_join. simpl.
  destruct (String.eqb a ""); [now exists ""|].
  destruct (ends_with_slash a); [now exists a|].
  exists (a +:+ "/"). now rewrite string_app_assoc.
Qed.

(** Joining a relative name onto the data directory puts it directly
    below that directory. *)
Lemma posixpath_join_dir_data a name :
  String.prefix "/" name = false ->
  posixpath_join (posixpath_join a "models/ner") name
  = posixpath_join a "models/ner" +:+ "/" +:+ name.
Proof.
  intros Hrel. destruct (posixpath_join_models_ner a) as [pre ->].
  unfold posixpath_join. rewrite Hrel, ends_with_slash_models_ner.
  destruct pre; reflexivity.
Qed.

Lemma Configure_paths (w : World) (c : Config) (w' : World) :
  Configure w = (Ok c, w') ->
  dir_data c = path_join LOCAL_DIR "models/ner" /\
  dir_final_model c = path_join (dir_data c) "model.weights/".
Proof.
  unfold Configure. intros H.
  apply bind_inv_ok_unit in H as (w1 & _ & H).
  unfold ret in H. injection H as <- _. split; reflexivity.
Qed.

(** On a POSIX platform, where [os.path.join] is [posixpath.join], and
    whatever [LOCAL_DIR] is there (empty, relative, with or without a
    trailing slash), [Configure] places the weights directory, the three
    vocabulary files, the two embedding files, the results directory and the
    log file handed to the base class directly under
    [<LOCAL_DIR>/models/ner]. *)
Theorem Configure_layout (w : World) (c : Config) (w' : World) :
  (forall a b, path_join a b = posixpath_join a b) ->
  Configure w = (Ok c, w') ->
  dir_data c = posixpath_join LOCAL_DIR "models/ner" /\
  dir_final_model c = dir_data c +:+ "/model.weights/" /\
  filename_words c = dir_data c +:+ "/words.txt" /\
  filename_tags c = dir_data c +:+ "/tags.txt" /\
  filename_chars c = dir_data c +:+ "/chars.txt" /\
  filename_glove c = dir_data c +:+ "/w2v.txt" /\
  filename_trimmed c = dir_data c +:+ "/glove.6B.200d.trimmed.npz" /\
  dir_output c = dir_data c +:+ "/results/" /\
  Config_init c (dir_data c +:+ "/logs.txt") w = (Ok tt, w').
Proof.
  intros Hposix. unfold Configure. intros H.
  apply bind_inv_ok_unit in H as (w1 & Hinit & H).
  unfold ret in H. injection H as <- <-. simpl.
  rewrite !Hposix in *.
  rewrite !posixpath_join_dir_data in * by reflexivity.
  repeat split; auto.
Qed.

(** A constructed classifier has word dimension 250 and character
    dimension 50 whatever the base class defaults are, keeps the data and
    weights directories [Configure] joined from [LOCAL_DIR], and its model
    was built on that very configuration; [api_url] holds the model's
    endpoint for the serving model and is [None] for the local one. *)
Theorem init_config_and_model
    (environ : gmap string string) (w : World) (c : NERClassifier) (w' : World) :
  __init__ environ w = (Ok c, w') ->
  dim_word (config c) = 250 /\
  dim_char (config c) = 50 /\
  dir_data (config c) = path_join LOCAL_DIR "models/ner" /\
  dir_final_model (config c) = path_join (dir_data (config c)) "model.weights/" /\
  match model c with
  | NERServingModel cfg url => cfg = config c /\ api_url c = Some url
  | NERModel cfg => cfg = config c /\ api_url c = None
  end.
Proof.
  unfold __init__. intros H.
  apply bind_inv_ok in H as (cfg & wa & Hcfg & H).
  apply bind_inv_ok_unit in H as (wb & Hreset & H).
  apply bind_inv_ok in H as (m & wc & Hmodel & H).
  apply bind_inv_ok in H as (nz & wd & Hnz & H).
  apply bind_inv_ok in H as (pr & we & Hpr & H).
  unfold ret in H. injection H as <- <-. simpl.
  apply Configure_paths in Hcfg as (Hd & Hf).
  repeat (split; [auto|]).
  destruct (environ !! "TF_SERVING_URL") as [url|].
  - apply bind_inv_ok_unit in Hmodel as (w1 & _ & Hm).
    unfold ret in Hm. injection Hm as <- _. auto.
  - apply bind_inv_ok_unit in Hmodel as (w1 & _ & Hm). simpl in Hm.
    apply bind_inv_ok_unit in Hm as (w2 & _ & Hm).
    apply bind_inv_ok_unit in Hm as (w3 & _ & Hm).
    unfold ret in Hm. injection Hm as <- _. auto.
Qed.

(** With no endpoint configured, a failure to restore the weights is fatal
    at construction: [__init__] ends with that exception and no classifier
    exists; the normalizer and the processor are not even created. *)
Theorem init_local_restore_failure_is_fatal
    (environ : gmap string string) (w : World) (cfg0 : Config)
    (w1 w2 w3 w4 w5 : World) (e : Exn) :
  environ !! "TF_SERVING_URL" = None ->
  Configure w = (Ok cfg0, w1) ->
  reset_default_graph w1 = (Ok tt, w2) ->
  NERModel_init (set_dim_char 50 (set_dim_word 250 cfg0)) w2 = (Ok tt, w3) ->
  build (NERModel (set_dim_char 50 (set_dim_word 250 cfg0))) w3 = (Ok tt, w4) ->
  restore_session (NERModel (set_dim_char 50 (set_dim_word 250 cfg0)))
    (dir_final_model cfg0) w4 = (Raise e, w5) ->
  __init__ environ w = (Raise e, w5).
Proof.
  intros Henv Hcfg Hreset Hinit Hbuild Hrestore.
  unfold __init__. rewrite (bind_ok _ _ _ _ _ Hcfg), (bind_ok _ _ _ _ _ Hreset).
  rewrite Henv. apply bind_raise.
  rewrite (bind_ok _ _ _ _ _ Hinit). simpl.
  rewrite (bind_ok _ _ _ _ _ Hbuild). now apply bind_raise.
Qed.

(** With an endpoint configured, construction needs neither [build] nor
    [restore_session]: it returns as soon as the configuration, the graph
    reset, the serving model, the normalizer and the processor are set up,
    holding the serving model on that endpoint. *)
Theorem init_remote_returns
    (environ : gmap string string) (url : string) (w : World) (cfg0 : Config)
    (w1 w2 w3 w4 w5 : World) (n : Normalizer) (p : Processor) :
  environ !! "TF_SERVING_URL" = Some url ->
  Configure w = (Ok cfg0, w1) ->
  reset_default_graph w1 = (Ok tt, w2) ->
  NERServingModel_init (set_dim_char 50 (set_dim_word 250 cfg0)) url w2 = (Ok tt, w3) ->
  Normalizer_new w3 = (Ok n, w4) ->
  MatScholarProcess_new w4 = (Ok p, w5) ->
  __init__ environ w
  = (Ok {| config := set_dim_char 50 (set_dim_word 250 cfg0);
           api_url := Some url;
           model := NERServingModel (set_dim_char 50 (set_dim_word 250 cfg0)) url;
           normalizer := n; processor := p |}, w5).
Proof.
  intros Henv Hcfg Hreset Hinit Hn Hp.
  unfold __init__. rewrite (bind_ok _ _ _ _ _ Hcfg), (bind_ok _ _ _ _ _ Hreset).
  rewrite Henv.
  erewrite bind_ok; [|rewrite (bind_ok _ _ _ _ _ Hinit); reflexivity].
  rewrite (bind_ok _ _ _ _ _ Hn), (bind_ok _ _ _ _ _ Hp). reflexivity.
Qed.

(** On a classifier that [__init__] built, [save_model] builds the model
    again, restores it from the directory construction uses, [LOCAL_DIR]
    joined with ["models/ner"] and then with ["model.weights/"], and only
    then exports to [save_dir]; it does so for either variant, stops at the
    first step that raises, and leaves the classifier as it was. *)
Theorem save_model_after_init
    (environ : gmap string string) (w : World) (c : NERClassifier) (w' : World)
    (save_dir : string) (w0 : World) :
  __init__ environ w = (Ok c, w') ->
  save_model save_dir {| self := c; world := w0 |}
  = match build (model c) w0 with
    | (Ok _, w1) =>
        match restore_session (model c)
                (path_join (path_join LOCAL_DIR "models/ner") "model.weights/") w1 with
        | (Ok _, w2) =>
            match save_prediction_model (model c) save_dir w2 with
            | (r, w3) => (r, {| self := c; world := w3 |})
            end
        | (Raise e, w2) => (Raise e, {| self := c; world := w2 |})
        end
    | (Raise e, w1) => (Raise e, {| self := c; world := w1 |})
    end.
Proof.
  intros Hinit. apply init_config_and_model in Hinit as (_ & _ & Hd & Hf & _).
  rewrite <- Hd, <- Hf.
  unfold save_model, bind, getattr, call. simpl.
  destruct (build (model c) w0) as [[u|e] w1]; [|reflexivity]. simpl.
  destruct (restore_session (model c) (dir_final_model (config c)) w1)
    as [[u'|e] w2]; reflexivity.
Qed.

End Construction.

Lemma Configure_layout_witness :
  dir_final_model Mock.local_config = dir_data Mock.local_config +:+ "/model.weights/".
Proof.
  refine (proj1 (proj2 (@Configure_layout Mock.sound 0
           {| dim_word := 300; dim_char := 100;
              dir_data := dir_data Mock.local_config;
              dir_final_model := dir_final_model Mock.local_config;
              filename_words := filename_words Mock.local_config;
              filename_tags := filename_tags Mock.local_config;
              filename_chars := filename_chars Mock.local_config;
              filename_glove := filename_glove Mock.local_config;
              filename_trimmed := filename_trimmed Mock.local_config;
              dir_output := dir_output Mock.local_config |} 0 _ eq_refl))).
  intros a b. reflexivity.
Defined.

Lemma init_config_and_model_witness :
  dim_word Mock.local_config = 250.
Proof.
  exact (proj1 (@init_config_and_model Mock.sound
           {[ "TF_SERVING_URL" := "http://tf:8501" ]} 0
           (Mock.remote_classifier Mock.sound tt tt) 0 eq_refl)).
Defined.

Lemma init_local_restore_failure_is_fatal_witness :
  @__init__ Mock.no_weights ∅ 0 = (Raise "NotFoundError: model.weights", 2).
Proof.
  exact (@init_local_restore_failure_is_fatal Mock.no_weights ∅ 0
           {| dim_word := 300; dim_char := 100;
              dir_data := dir_data Mock.local_config;
              dir_final_model := dir_final_model Mock.local_config;
              filename_words := filename_words Mock.local_config;
              filename_tags := filename_tags Mock.local_config;
              filename_chars := filename_chars Mock.local_config;
              filename_glove := filename_glove Mock.local_config;
              filename_trimmed := filename_trimmed Mock.local_config;
              dir_output := dir_output Mock.local_config |}
           0 0 0 1 2 "NotFoundError: model.weights"
           eq_refl eq_refl eq_refl eq_refl eq_refl eq_refl).
Defined.

Lemma init_remote_returns_witness :
  @__init__ Mock.no_weights {[ "TF_SERVING_URL" := "http://tf:8501" ]} 0
  = (Ok (Mock.remote_classifier Mock.no_weights tt tt), 0).
Proof.
  exact (@init_remote_returns Mock.no_weights
           {[ "TF_SERVING_URL" := "http://tf:8501" ]} "http://tf:8501" 0
           {| dim_word := 300; dim_char := 100;
              dir_data := dir_data Mock.local_config;
              dir_final_model := dir_final_model Mock.local_config;
              filename_words := filename_words Mock.local_config;
              filename_tags := filename_tags Mock.local_config;
              filename_chars := filename_chars Mock.local_config;
              filename_glove := filename_glove Mock.local_config;
              filename_trimmed := filename_trimmed Mock.local_config;
              dir_output := dir_output Mock.local_config |}
           0 0 0 0 0 tt tt
           eq_refl eq_refl eq_refl eq_refl eq_refl eq_refl).
Defined.

Lemma save_model_after_init_witness :
  @save_model Mock.no_weights "/tmp/export"
    {| self := Mock.remote_classifier Mock.no_weights tt tt; world := 0 |}
  = (Raise "NotFoundError: model.weights",
     {| self := Mock.remote_classifier Mock.no_weights tt tt; world := 2 |}).
Proof.
  exact (@save_model_after_init Mock.no_weights
           {[ "TF_SERVING_URL" := "http://tf:8501" ]} 0
           (Mock.remote_classifier Mock.no_weights tt tt) 0 "/tmp/export" 0 eq_refl).
Defined.

(** ** Single-document and batch forms *)

Section SingleAndBatch.
Context {X : External}.

(** The single-document methods agree with the batch methods on a batch of
    one: tagging a document and normalizing it with [normalize_entities] is
    the first element of [as_normalized] on that document alone, and
    tagging it and calling [concatenate_entities] is the only element of
    [as_concatenated]; results, exceptions and final states coincide. *)
Theorem single_document_forms_agree_with_batch (doc : string) (st : State) :
  (r <- as_normalized [doc] ;; item0 r) st
  = (tagged_doc <- tag_doc doc ;; normalize_entities doc tagged_doc) st /\
  as_concatenated [doc] st
  = (tagged_doc <- tag_doc doc ;;
     conc <- concatenate_entities tagged_doc ;;
     ret [conc]) st.
Proof.
  split.
  - unfold as_normalized, normalize_entities, bind.
    rewrite tag_docs_collect. simpl. unfold bind, ret, getattr, call.
    destruct (tag_doc doc st) as [[td|e] st1]; [|reflexivity].
    destruct (normalize (normalizer (self st1)) [doc] [td] (world st1))
      as [[r|e] w]; reflexivity.
  - unfold as_concatenated.
    rewrite (bind_ext _ _ (comprehension concatenate_entities))
      by (intros; apply concatenate_loop_collect).
    unfold bind at 1 2. rewrite tag_docs_collect. simpl. unfold bind at 1. unfold ret at 1.
    destruct (tag_doc doc st) as [[td|e] st1]; [|reflexivity].
    simpl. unfold bind, ret.
    destruct (concatenate_entities td st1) as [[c|e] st2]; reflexivity.
Qed.

End SingleAndBatch.
